(** * A PagerDuty API client: pagination, query merging and error mapping

    The repository carries three revisions of its client module and one
    helper module:

    - [lib/utils.js] ([updateUrl]), the query-merge helper;
    - the request-based client (the revision that reads its fallback token
      from [process.env.CustomPagerDutyToken] and the class revision that
      reads it from [this.token]); both share every line that follows the
      token check and are embedded once, as [RequestClient], with the
      fallback token as an argument;
    - the axios-based client (class revision with a timeout), embedded as
      [AxiosClient].

    JavaScript values are embedded as follows.  Strings are byte strings
    (the UTF-8 encoding of the JS string); numbers are the integers, which
    JS doubles represent exactly below 2^53, plus NaN; objects are
    association lists kept in JS property order.  The Node built-ins the
    code calls ([url.parse], [url.format], [querystring.parse],
    [querystring.stringify], [JSON.stringify], [Array.prototype.concat],
    [Object.assign]) are embedded as executable functions next to the code
    that calls them.

    Left outside: query text whose percent-decoding is not valid UTF-8,
    numbers of 1e21 and more (JS prints them with an exponent), properties
    inherited from a prototype, and a caller's callback that throws.  The
    transport is a script: the list of the outcomes it gives to the
    successive requests of one call. *)

From Stdlib Require Import String Ascii List ZArith NArith Lia Bool DecimalString.
Import ListNotations.
Open Scope string_scope.

(* ================================================================== *)
(** ** Strings *)

Module Str.

Fixpoint join (sep : string) (l : list string) : string :=
  match l with
  | [] => ""
  | [x] => x
  | x :: rest => x ++ sep ++ join sep rest
  end.

(** [cut c s]: the text before the first [c], and the text after it when
    there is one. *)
Fixpoint cut (c : ascii) (s : string) : string * option string :=
  match s with
  | EmptyString => (EmptyString, None)
  | String a t =>
      if Ascii.eqb a c then (EmptyString, Some t)
      else let (h, r) := cut c t in (String a h, r)
  end.

(** [split c s]: the pieces of [s] between occurrences of [c]
    (as [String.prototype.split] does for a one-character separator). *)
Fixpoint split (c : ascii) (s : string) : list string :=
  match s with
  | EmptyString => [EmptyString]
  | String a t =>
      if Ascii.eqb a c then EmptyString :: split c t
      else match split c t with
           | [] => [String a EmptyString]
           | h :: r => String a h :: r
           end
  end.

Fixpoint all (P : ascii -> bool) (s : string) : bool :=
  match s with
  | EmptyString => true
  | String a t => P a && all P t
  end.

Definition lacks (c : ascii) (s : string) : bool :=
  all (fun a => negb (Ascii.eqb a c)) s.

Definition map (f : ascii -> ascii) : string -> string :=
  fix go s :=
    match s with
    | EmptyString => EmptyString
    | String a t => String (f a) (go t)
    end.

Definition is_empty (s : string) : bool :=
  match s with EmptyString => true | _ => false end.

End Str.

(* ================================================================== *)
(** ** JavaScript values *)

(** Primitive values. *)
Inductive Prim :=
| PUndef
| PNull
| PBool (b : bool)
| PNum (n : Z)
| PNaN
| PStr (s : string).

(** JSON-shaped values (what a parsed response body can be). *)
#[warnings="-register-all"]
Inductive JV :=
| JP (p : Prim)
| JArr (l : list JV)
| JObj (o : list (string * JV)).

Definition JUndef := JP PUndef.
Definition JNull := JP PNull.
Definition JBool b := JP (PBool b).
Definition JNum n := JP (PNum n).
Definition JStr s := JP (PStr s).

(** Decimal text of an integer, as [String(n)] prints it. *)
Definition num_to_string (n : Z) : string :=
  NilZero.string_of_int (Z.to_int n).

(** [ToString] on primitives. *)
Definition prim_to_string (p : Prim) : string :=
  match p with
  | PUndef => "undefined"
  | PNull => "null"
  | PBool true => "true"
  | PBool false => "false"
  | PNum n => num_to_string n
  | PNaN => "NaN"
  | PStr s => s
  end.

(** [ToBoolean]. *)
Definition prim_truthy (p : Prim) : bool :=
  match p with
  | PUndef | PNull | PNaN => false
  | PBool b => b
  | PNum n => negb (n =? 0)%Z
  | PStr s => negb (Str.is_empty s)
  end.

Definition truthy (v : JV) : bool :=
  match v with
  | JP p => prim_truthy p
  | JArr _ | JObj _ => true
  end.

(** [ToString] on any value: an array prints its elements joined by commas,
    [null] and [undefined] elements as the empty text; a plain object
    prints as [[object Object]]. *)
Fixpoint js_to_string (v : JV) : string :=
  match v with
  | JP p => prim_to_string p
  | JArr l =>
      Str.join ","
        (List.map (fun e => match e with
                            | JP PUndef | JP PNull => ""
                            | _ => js_to_string e
                            end) l)
  | JObj _ => "[object Object]"
  end.

(** [ToPrimitive] with the default hint: arrays and objects go through
    [toString]. *)
Definition to_primitive (v : JV) : Prim :=
  match v with
  | JP p => p
  | _ => PStr (js_to_string v)
  end.

(** [ToNumber] on the primitives that are not strings; [None] is NaN. *)
Definition prim_to_number (p : Prim) : option Z :=
  match p with
  | PUndef | PNaN => None
  | PNull => Some 0%Z
  | PBool b => Some (if b then 1 else 0)%Z
  | PNum n => Some n
  | PStr _ => None
  end.

Definition is_string (p : Prim) : bool :=
  match p with PStr _ => true | _ => false end.

(** The binary [+]: text concatenation when either operand is a string
    after [ToPrimitive], numeric addition otherwise. *)
Definition js_add (a : Prim) (b : JV) : Prim :=
  let pb := to_primitive b in
  if is_string a || is_string pb
  then PStr (prim_to_string a ++ prim_to_string pb)
  else match prim_to_number a, prim_to_number pb with
       | Some x, Some y => PNum (x + y)
       | _, _ => PNaN
       end.

(* ================================================================== *)
(** ** Objects in property order *)

Definition is_digit (c : ascii) : bool :=
  let n := N_of_ascii c in ((48 <=? n) && (n <=? 57))%N.

Definition digit_val (c : ascii) : N := (N_of_ascii c - 48)%N.

Fixpoint digits_val (acc : N) (s : string) : N :=
  match s with
  | EmptyString => acc
  | String c t => digits_val (acc * 10 + digit_val c)%N t
  end.

(** An array index: the canonical decimal text of an integer in
    [0, 2^32 - 2].  Such keys are enumerated first, in ascending order. *)
Definition array_index (k : string) : option N :=
  match k with
  | EmptyString => None
  | String c t =>
      if Str.all is_digit k
         && (negb (Ascii.eqb c "0") || Str.is_empty t)
         && (String.length k <=? 10)%nat
         && (digits_val 0 k <=? 4294967294)%N
      then Some (digits_val 0 k)
      else None
  end.

(** [goes_before k k']: a new key [k] is enumerated before the existing key
    [k'] although it was created later. *)
Definition goes_before (k k' : string) : bool :=
  match array_index k, array_index k' with
  | Some m, Some n => (m <? n)%N
  | Some _, None => true
  | None, _ => false
  end.

Section Objects.
Context {V : Type}.

Definition Obj := list (string * V).

Fixpoint obj_get (k : string) (o : Obj) : option V :=
  match o with
  | [] => None
  | (k', v) :: t => if String.eqb k k' then Some v else obj_get k t
  end.

Definition obj_has (k : string) (o : Obj) : bool :=
  match obj_get k o with Some _ => true | None => false end.

(** Assignment to an existing own property keeps its place. *)
Fixpoint obj_replace (k : string) (v : V) (o : Obj) : Obj :=
  match o with
  | [] => []
  | (k', v') :: t =>
      if String.eqb k k' then (k', v) :: t
      else (k', v') :: obj_replace k v t
  end.

(** Creation of a property. *)
Fixpoint obj_insert (k : string) (v : V) (o : Obj) : Obj :=
  match o with
  | [] => [(k, v)]
  | (k', v') :: t =>
      if goes_before k k' then (k, v) :: o
      else (k', v') :: obj_insert k v t
  end.

(** [o[k] = v]. *)
Definition obj_set (k : string) (v : V) (o : Obj) : Obj :=
  if obj_has k o then obj_replace k v o else obj_insert k v o.

Definition obj_keys (o : Obj) : list string := List.map fst o.

(** [Object.assign(target, source)]: every own property of [source], in
    order, is assigned on [target]. *)
Definition obj_assign (target source : Obj) : Obj :=
  fold_left (fun acc kv => obj_set (fst kv) (snd kv) acc) source target.

End Objects.

Arguments Obj : clear implicits.

(* ================================================================== *)
(** ** Node's [querystring] module *)

Module QueryString.

(** Characters [querystring.escape] leaves as they are: letters, digits
    and [! ' ( ) * - . _ ~]. *)
Definition no_escape (c : ascii) : bool :=
  let n := N_of_ascii c in
  (((48 <=? n) && (n <=? 57)) || ((65 <=? n) && (n <=? 90))
   || ((97 <=? n) && (n <=? 122))
   || (n =? 33) || ((39 <=? n) && (n <=? 42)) || (n =? 45) || (n =? 46)
   || (n =? 95) || (n =? 126))%N.

Definition hex_digit (n : N) : ascii :=
  if (n <? 10)%N then ascii_of_N (48 + n) else ascii_of_N (55 + n).

Definition escape_char (c : ascii) : string :=
  if no_escape c then String c EmptyString
  else let n := N_of_ascii c in
       String "%" (String (hex_digit (n / 16)) (String (hex_digit (n mod 16)) EmptyString)).

(** [querystring.escape]: percent-encoding, byte by byte, upper-case hex. *)
Fixpoint escape (s : string) : string :=
  match s with
  | EmptyString => EmptyString
  | String c t => escape_char c ++ escape t
  end.

Definition unhex (c : ascii) : option N :=
  let n := N_of_ascii c in
  if ((48 <=? n) && (n <=? 57))%N then Some (n - 48)%N
  else if ((65 <=? n) && (n <=? 70))%N then Some (n - 55)%N
  else if ((97 <=? n) && (n <=? 102))%N then Some (n - 87)%N
  else None.

(** [querystring.unescape]: a [%] followed by two hex digits is one byte;
    any other [%] stands for itself. *)
Fixpoint unescape (s : string) : string :=
  match s with
  | EmptyString => EmptyString
  | String c t =>
      if Ascii.eqb c "%" then
        match t with
        | String a (String b r) =>
            match unhex a, unhex b with
            | Some h, Some l => String (ascii_of_N (16 * h + l)) (unescape r)
            | _, _ => String c (unescape t)
            end
        | _ => String c (unescape t)
        end
      else String c (unescape t)
  end.

Definition plus_to_space (c : ascii) : ascii :=
  if Ascii.eqb c "+" then " "%char else c.

(** What [parse] does to the text of a key or of a value: [+] is a space,
    then percent-decoding. *)
Definition decode (s : string) : string :=
  unescape (Str.map plus_to_space s).

(** A property of the parsed object: one value, or the array that
    repeated keys build. *)
Inductive QVal :=
| QOne (p : Prim)
| QMany (l : list Prim).

Definition QObj := Obj QVal.

(** [addKeyValue(obj, key, value)]. *)
Definition addKeyValue (obj : QObj) (key value : string) : QObj :=
  match obj_get key obj with
  | None | Some (QOne PUndef) => obj_set key (QOne (PStr value)) obj
  | Some (QMany l) => obj_set key (QMany (l ++ [PStr value])) obj
  | Some (QOne cur) => obj_set key (QMany [cur; PStr value]) obj
  end.

(** [parse] stops after this many [&]-separated pieces (its [maxKeys]
    default). *)
Definition maxKeys : nat := 1000.

(** One [&]-separated piece: an empty piece adds nothing; otherwise the
    text before the first [=] is the key and the rest is the value. *)
Definition add_piece (obj : QObj) (piece : string) : QObj :=
  if Str.is_empty piece then obj
  else let (k, v) := Str.cut "=" piece in
       addKeyValue obj (decode k)
                   (decode (match v with Some x => x | None => EmptyString end)).

(** [querystring.parse(qs)]; [None] is the [null] that [url.parse] gives
    an address without [?]. *)
Definition parse (qs : option string) : QObj :=
  match qs with
  | None => []
  | Some s => fold_left add_piece (firstn maxKeys (Str.split "&" s)) []
  end.

(** [encodeStringified]: what [stringify] prints for a value: a string
    escaped, a finite number as [String(n)], a boolean as its name, and
    nothing for anything else. *)
Definition stringify_primitive (p : Prim) : string :=
  match p with
  | PStr s => escape s
  | PNum n => num_to_string n
  | PBool true => "true"
  | PBool false => "false"
  | PUndef | PNull | PNaN => ""
  end.

Definition field (k : string) (p : Prim) : string :=
  escape k ++ "=" ++ stringify_primitive p.

(** The [key=value] fields of an object, in property order; an array
    gives one field per element. *)
Definition fields (obj : QObj) : list string :=
  flat_map (fun kv => match snd kv with
                      | QOne p => [field (fst kv) p]
                      | QMany l => List.map (field (fst kv)) l
                      end) obj.

(** [querystring.stringify(obj)]. *)
Definition stringify (obj : QObj) : string :=
  Str.join "&" (fields obj).

End QueryString.

(* ================================================================== *)
(** ** Node's [url] module, as far as [updateUrl] uses it

    [url.parse] splits an address into the fragment (from the first [#]),
    the query (from the first [?] before it) and what precedes them:
    scheme, host and path.  Those leading components never reach the query
    logic; they are carried as the one text [base], and the re-spelling
    Node applies to them (lower-casing the host, escaping the path) is left
    out. *)

Module Url.

Record t := mk {
  base : string;
  search : option string;
  query : option string;
  hash : string
}.

Definition parse (address : string) : t :=
  let (rest, h) := Str.cut "#" address in
  let (b, q) := Str.cut "?" rest in
  {| base := b;
     search := match q with Some x => Some ("?" ++ x) | None => None end;
     query := q;
     hash := match h with Some x => "#" ++ x | None => "" end |}.

Definition set_search (u : t) (s : string) : t :=
  {| base := base u; search := Some s; query := query u; hash := hash u |}.

(** [url.format]: [this.search || (query && '?' + query) || '']. *)
Definition format (u : t) : string :=
  let s :=
    match search u with
    | Some x => if Str.is_empty x then
                  match query u with
                  | Some q => if Str.is_empty q then "" else "?" ++ q
                  | None => ""
                  end
                else x
    | None => match query u with
              | Some q => if Str.is_empty q then "" else "?" ++ q
              | None => ""
              end
    end in
  base u ++ s ++ hash u.

End Url.

(* ================================================================== *)
(** ** [lib/utils.js] *)

Import QueryString.

Definition set_default (k : string) (p : Prim) (qs : QObj) : QObj :=
  if obj_has k qs then qs else obj_set k (QOne p) qs.

(** [updateUrl(address, offset)].  The helper has two revisions, which
    differ only in how the own-property test is spelled
    ([Object.hasOwnProperty.call(qs, k)] and [qs.hasOwnProperty(k)]). *)
Definition updateUrl (address : string) (offset : Prim) : string :=
  let parsed := Url.parse address in
  let query := Url.query parsed in
  let qs := QueryString.parse query in
  let qs := set_default "offset" offset qs in
  let qs := set_default "total" (PBool true) qs in
  let qs := set_default "limit" (PNum 100) qs in
  let parsed := Url.set_search parsed ("?" ++ QueryString.stringify qs) in
  let formatted := Url.format parsed in
  formatted.

(* ================================================================== *)
(** ** [JSON.stringify], property reads, [concat] *)

Definition dquote : ascii := "034"%char.
Definition backslash : ascii := "092"%char.

Definition lower_hex_digit (n : N) : ascii :=
  if (n <? 10)%N then ascii_of_N (48 + n) else ascii_of_N (87 + n).

Definition json_escape_char (c : ascii) : string :=
  let n := N_of_ascii c in
  let esc (x : ascii) := String backslash (String x EmptyString) in
  if Ascii.eqb c dquote then esc dquote
  else if Ascii.eqb c backslash then esc backslash
  else if (n =? 8)%N then esc "b"%char
  else if (n =? 9)%N then esc "t"%char
  else if (n =? 10)%N then esc "n"%char
  else if (n =? 12)%N then esc "f"%char
  else if (n =? 13)%N then esc "r"%char
  else if (n <? 32)%N then
    String backslash
      ("u00" ++ String (lower_hex_digit (n / 16))
                       (String (lower_hex_digit (n mod 16)) EmptyString))
  else String c EmptyString.

Fixpoint json_escape (s : string) : string :=
  match s with
  | EmptyString => EmptyString
  | String c t => json_escape_char c ++ json_escape t
  end.

Definition json_quote (s : string) : string :=
  String dquote (json_escape s ++ String dquote EmptyString).

Definition json_prim (p : Prim) : option string :=
  match p with
  | PUndef => None
  | PNull | PNaN => Some "null"
  | PBool true => Some "true"
  | PBool false => Some "false"
  | PNum n => Some (num_to_string n)
  | PStr s => Some (json_quote s)
  end.

(** [JSON.stringify(v)]; [None] is the [undefined] it returns for
    [undefined].  An [undefined] array element prints as [null], an
    [undefined] property is left out. *)
Fixpoint json_stringify (v : JV) : option string :=
  match v with
  | JP p => json_prim p
  | JArr l =>
      Some ("[" ++ Str.join ","
                     (List.map (fun e => match json_stringify e with
                                         | Some s => s
                                         | None => "null"
                                         end) l) ++ "]")
  | JObj o =>
      Some ("{" ++ Str.join ","
                     ((fix props (o : list (string * JV)) : list string :=
                         match o with
                         | [] => []
                         | (k, x) :: t =>
                             match json_stringify x with
                             | Some s => (json_quote k ++ ":" ++ s) :: props t
                             | None => props t
                             end
                         end) o) ++ "}")
  end.

(** A value inside a template literal. *)
Definition tpl (o : option string) : string :=
  match o with Some s => s | None => "undefined" end.

(** The property read [v[k]] on data properties; [None] is the [TypeError]
    of a read on [null] or [undefined].  Inherited methods are not JSON
    values and are outside this embedding. *)
Definition js_get (v : JV) (k : string) : option JV :=
  match v with
  | JP PUndef | JP PNull => None
  | JObj o => Some (match obj_get k o with Some x => x | None => JUndef end)
  | JArr l =>
      Some (match array_index k with
            | Some i => nth (N.to_nat i) l JUndef
            | None => if String.eqb k "length"
                      then JNum (Z.of_nat (List.length l)) else JUndef
            end)
  | JP (PStr s) =>
      Some (match array_index k with
            | Some i => match String.get (N.to_nat i) s with
                        | Some c => JStr (String c EmptyString)
                        | None => JUndef
                        end
            | None => if String.eqb k "length"
                      then JNum (Z.of_nat (String.length s)) else JUndef
            end)
  | JP _ => Some JUndef
  end.

(** [results.concat(x)]: an array argument is spread, one level; any other
    value is appended as one element. *)
Definition concat (results : list JV) (x : JV) : list JV :=
  match x with
  | JArr l => results ++ l
  | _ => results ++ [x]
  end.

(* ================================================================== *)
(** ** Requests, responses, callbacks *)

Inductive Method := GET | POST | PUT | DELETE.

(** The options handed to the HTTP library: [json] is the [json] option of
    [request] ([true] for a GET, the body for a POST or PUT), [data] and
    [req_timeout] are the [data] and [timeout] options of [axios]. *)
Record Request := mkRequest {
  method : Method;
  url : string;
  headers : Obj string;
  json : option JV;
  data : option JV;
  req_timeout : option Z
}.

(** The error value of the HTTP library for a failed round trip. *)
Inductive NetErr := NetError (code : string).

(** The final outcome of one round trip. *)
Inductive Outcome :=
| NetFail (err : NetErr)
| Response (statusCode : Z) (body : JV).

(** What the caller's callback can receive as its first argument. *)
Inductive CbError :=
| ErrorObject (message : string)
| TypeErrorObject
| ErrorText (text : string)
| TransportError (err : NetErr).

(** How a call ends: [callback(err)], [callback(null, r)], an exception
    that nothing catches (the callback is never called), or a transport
    that never answers. *)
Inductive Completion (R : Type) :=
| Failed (e : CbError)
| Succeeded (r : R)
| Uncaught
| Pending.

Arguments Failed {R} e.
Arguments Succeeded {R} r.
Arguments Uncaught {R}.
Arguments Pending {R}.

(** A call: the requests it hands to the transport, in order, the [offset]
    argument of each [query] invocation (GET only), and how it ends. *)
Record Run (R : Type) := mkRun {
  cursors : list Prim;
  requests : list Request;
  completion : Completion R
}.

Arguments mkRun {R}.
Arguments cursors {R}.
Arguments requests {R}.
Arguments completion {R}.

Definition stop {R} (c : Completion R) : Run R := mkRun [] [] c.

Definition once {R} (req : Request) (c : Completion R) : Run R := mkRun [] [req] c.

Definition fetched {R} (offset : Prim) (req : Request) (r : Run R) : Run R :=
  mkRun (offset :: cursors r) (req :: requests r) (completion r).

(** The [options] argument of the four operations. *)
Record Options := mkOptions {
  path : option string;
  key : option string;
  body : option JV;
  extra_headers : option (Obj string);
  token : option string;
  timeout : option Z
}.

(** The client: [process.env.TEST], the fallback token
    ([process.env.CustomPagerDutyToken] or [this.token]) and
    [this.timeout]. *)
Record Client := mkClient {
  env_TEST : bool;
  this_token : option string;
  this_timeout : Z
}.

Definition baseUrl (this : Client) : string :=
  if env_TEST this then "http://localhost:3333/" else "https://api.pagerduty.com/".

Definition text_truthy (o : option string) : bool :=
  match o with Some s => negb (Str.is_empty s) | None => false end.

Definition value_truthy (o : option JV) : bool :=
  match o with Some v => truthy v | None => false end.

Definition mandatory_headers (options : Options) : Obj string :=
  [("Accept", "application/vnd.pagerduty+json;version=2");
   ("Authorization", "Token token=" ++ tpl (token options))].

(** [Object.assign(headers, options.headers)]. *)
Definition merged_headers (options : Options) : Obj string :=
  obj_assign (mandatory_headers options)
             (match extra_headers options with Some h => h | None => [] end).

(** [if (!options.token) options.token = this.token]. *)
Definition default_token (this : Client) (options : Options) : Options :=
  if negb (text_truthy (token options))
  then mkOptions (path options) (key options) (body options)
                 (extra_headers options) (this_token this) (timeout options)
  else options.

(** [if (!hasOwnProperty(options, 'timeout')) options.timeout = this.timeout]. *)
Definition default_timeout (this : Client) (options : Options) : Options :=
  match timeout options with
  | Some _ => options
  | None => mkOptions (path options) (key options) (body options)
                      (extra_headers options) (token options)
                      (Some (this_timeout this))
  end.

Definition expected_status (m : Method) : Z :=
  match m with
  | GET => 200
  | POST => 201
  | PUT => 200
  | DELETE => 204
  end.

(** The page fold shared by both clients:
    [results = options.key ? results.concat(body[options.key]) : results.concat(body)]. *)
Definition accumulate (options : Options) (results : list JV) (body : JV)
  : option (list JV) :=
  if text_truthy (key options)
  then match js_get body (tpl (key options)) with
       | Some x => Some (concat results x)
       | None => None
       end
  else Some (concat results body).

(* ================================================================== *)
(** ** The request-based client *)

Module RequestClient.

(** [new PagerDuty(options)] of the class revision; the first revision has
    no constructor argument and reads the token from the environment.
    Neither has a timeout: [this_timeout] is not read by this client. *)
Definition constructor (TEST : bool) (pagerDutyToken : option string) : Client :=
  mkClient TEST pagerDutyToken 10000.

(** The text after the status code: [res.body.error.errors[0]]. *)
Definition error_detail (body : JV) : option string :=
  match js_get body "error" with
  | None => None
  | Some e =>
      match js_get e "errors" with
      | None => None
      | Some es =>
          match js_get es "0" with
          | None => None
          | Some d => Some (js_to_string d)
          end
      end
  end.

(** What a response with an unexpected status leads to. *)
Definition status_error {R} (statusCode : Z) (body : JV) : Completion R :=
  match error_detail body with
  | Some d => Failed (ErrorText ("HTTP status code " ++ num_to_string statusCode ++ ": " ++ d))
  | None => Uncaught
  end.

Definition get_request (this : Client) (options : Options) (offset : Prim) : Request :=
  mkRequest GET (updateUrl (baseUrl this ++ tpl (path options)) offset)
            (mandatory_headers options) (Some (JBool true)) None None.

(** [query(offset)], with [results] passed along; the transport answers
    the successive requests with the successive elements of [script]. *)
Fixpoint query (this : Client) (options : Options) (offset : Prim)
  (results : list JV) (script : list Outcome) : Run (list JV) :=
  let req := get_request this options offset in
  match script with
  | [] => fetched offset req (stop Pending)
  | NetFail err :: _ => fetched offset req (stop (Failed (TransportError err)))
  | Response statusCode body :: rest =>
      if negb (statusCode =? 200)%Z
      then fetched offset req (stop (status_error statusCode body))
      else
        match accumulate options results body with
        | None => fetched offset req (stop Uncaught)
        | Some results =>
            match js_get body "more" with
            | None => fetched offset req (stop Uncaught)
            | Some more =>
                if truthy more then
                  match js_get body "limit" with
                  | None => fetched offset req (stop Uncaught)
                  | Some limit =>
                      let offset' := js_add offset limit in
                      fetched offset req (query this options offset' results rest)
                  end
                else fetched offset req (stop (Succeeded results))
            end
        end
  end.

Definition get (this : Client) (options : Options) (script : list Outcome)
  : Run (list JV) :=
  if negb (text_truthy (path options))
  then stop (Failed (ErrorObject "Must provide options.path"))
  else if negb (text_truthy (token options)) && negb (text_truthy (this_token this))
  then stop (Failed (ErrorObject "Must provide PagerDuty access token"))
  else
    let options := default_token this options in
    query this options (PNum 0) [] script.

(** The part [post], [put] and [delete] share after their checks: one
    request, and [callback(null, res)] on the expected status. *)
Definition dispatch (req : Request) (answer : option Outcome)
  : Run (Z * JV) :=
  match answer with
  | None => once req Pending
  | Some (NetFail err) => once req (Failed (TransportError err))
  | Some (Response statusCode body) =>
      if negb (statusCode =? expected_status (method req))%Z
      then once req (status_error statusCode body)
      else once req (Succeeded (statusCode, body))
  end.

Definition post (this : Client) (options : Options) (answer : option Outcome)
  : Run (Z * JV) :=
  if negb (text_truthy (path options))
  then stop (Failed (ErrorObject "Must provide options.path"))
  else if negb (value_truthy (body options))
  then stop (Failed (ErrorObject "Must provide options.body"))
  else if negb (text_truthy (token options)) && negb (text_truthy (this_token this))
  then stop (Failed (ErrorObject "Must provide PagerDuty access token"))
  else
    let options := default_token this options in
    let headers := merged_headers options in
    dispatch (mkRequest POST (baseUrl this ++ tpl (path options)) headers
                        (body options) None None) answer.

Definition put (this : Client) (options : Options) (answer : option Outcome)
  : Run (Z * JV) :=
  if negb (text_truthy (path options))
  then stop (Failed (ErrorObject "Must provide options.path"))
  else if negb (value_truthy (body options))
  then stop (Failed (ErrorObject "Must provide options.body"))
  else if negb (text_truthy (token options)) && negb (text_truthy (this_token this))
  then stop (Failed (ErrorObject "Must provide PagerDuty access token"))
  else
    let options := default_token this options in
    let headers := merged_headers options in
    dispatch (mkRequest PUT (baseUrl this ++ tpl (path options)) headers
                        (body options) None None) answer.

Definition delete (this : Client) (options : Options) (answer : option Outcome)
  : Run (Z * JV) :=
  if negb (text_truthy (path options))
  then stop (Failed (ErrorObject "Must provide options.path"))
  else if negb (text_truthy (token options)) && negb (text_truthy (this_token this))
  then stop (Failed (ErrorObject "Must provide PagerDuty access token"))
  else
    let options := default_token this options in
    dispatch (mkRequest DELETE (baseUrl this ++ tpl (path options))
                        (mandatory_headers options) None None None) answer.

End RequestClient.

(* ================================================================== *)
(** ** The axios-based client *)

Module AxiosClient.

(** [new PagerDuty(options)]: [timeout] is the caller's when [options] has
    that property, 10000 otherwise. *)
Definition constructor (TEST : bool) (pagerDutyToken : option string)
  (timeout : option Z) : Client :=
  mkClient TEST pagerDutyToken
           (match timeout with Some t => t | None => 10000%Z end).

(** [`HTTP status code ${status}: ${JSON.stringify(data)}`]. *)
Definition status_text (status : Z) (data : JV) : string :=
  "HTTP status code " ++ num_to_string status ++ ": " ++ tpl (json_stringify data).

(** axios resolves its promise on a 2xx status and rejects it on any other
    (its default [validateStatus]). *)
Definition resolves (status : Z) : bool :=
  ((200 <=? status) && (status <? 300))%Z.

Definition get_request (this : Client) (options : Options) (offset : Prim) : Request :=
  mkRequest GET (updateUrl (baseUrl this ++ tpl (path options)) offset)
            (mandatory_headers options) None None (timeout options).

(** [query(offset)].  The [.then] handler runs on a resolved promise; an
    exception it raises, like a rejection, reaches the [.catch] handler,
    which calls back with the formatted text when the error carries a
    response and with the error itself otherwise. *)
Fixpoint query (this : Client) (options : Options) (offset : Prim)
  (results : list JV) (script : list Outcome) : Run (list JV) :=
  let req := get_request this options offset in
  match script with
  | [] => fetched offset req (stop Pending)
  | NetFail err :: _ => fetched offset req (stop (Failed (TransportError err)))
  | Response status body :: rest =>
      if resolves status then
        if negb (status =? 200)%Z
        then fetched offset req (stop (Failed (ErrorText (status_text status body))))
        else
          match accumulate options results body with
          | None => fetched offset req (stop (Failed TypeErrorObject))
          | Some results =>
              match js_get body "more" with
              | None => fetched offset req (stop (Failed TypeErrorObject))
              | Some more =>
                  if truthy more then
                    match js_get body "limit" with
                    | None => fetched offset req (stop (Failed TypeErrorObject))
                    | Some limit =>
                        let offset' := js_add offset limit in
                        fetched offset req (query this options offset' results rest)
                    end
                  else fetched offset req (stop (Succeeded results))
              end
          end
      else fetched offset req (stop (Failed (ErrorText (status_text status body))))
  end.

Definition get (this : Client) (options : Options) (script : list Outcome)
  : Run (list JV) :=
  if negb (text_truthy (path options))
  then stop (Failed (ErrorObject "Must provide options.path"))
  else if negb (text_truthy (token options)) && negb (text_truthy (this_token this))
  then stop (Failed (ErrorObject "Must provide PagerDuty access token"))
  else
    let options := default_token this options in
    let options := default_timeout this options in
    query this options (PNum 0) [] script.

(** One request; [callback(null, { body: res.data })] on the expected
    status.  The result is the [body] of that object. *)
Definition dispatch (req : Request) (answer : option Outcome) : Run JV :=
  match answer with
  | None => once req Pending
  | Some (NetFail err) => once req (Failed (TransportError err))
  | Some (Response status data) =>
      if resolves status then
        if negb (status =? expected_status (method req))%Z
        then once req (Failed (ErrorText (status_text status data)))
        else once req (Succeeded data)
      else once req (Failed (ErrorText (status_text status data)))
  end.

Definition post (this : Client) (options : Options) (answer : option Outcome)
  : Run JV :=
  if negb (text_truthy (path options))
  then stop (Failed (ErrorObject "Must provide options.path"))
  else if negb (value_truthy (body options))
  then stop (Failed (ErrorObject "Must provide options.body"))
  else if negb (text_truthy (token options)) && negb (text_truthy (this_token this))
  then stop (Failed (ErrorObject "Must provide PagerDuty access token"))
  else
    let options := default_token this options in
    let options := default_timeout this options in
    let headers := merged_headers options in
    dispatch (mkRequest POST (baseUrl this ++ tpl (path options)) headers
                        None (body options) (timeout options)) answer.

Definition put (this : Client) (options : Options) (answer : option Outcome)
  : Run JV :=
  if negb (text_truthy (path options))
  then stop (Failed (ErrorObject "Must provide options.path"))
  else if negb (value_truthy (body options))
  then stop (Failed (ErrorObject "Must provide options.body"))
  else if negb (text_truthy (token options)) && negb (text_truthy (this_token this))
  then stop (Failed (ErrorObject "Must provide PagerDuty access token"))
  else
    let options := default_token this options in
    let options := default_timeout this options in
    let headers := merged_headers options in
    dispatch (mkRequest PUT (baseUrl this ++ tpl (path options)) headers
                        None (body options) (timeout options)) answer.

Definition delete (this : Client) (options : Options) (answer : option Outcome)
  : Run JV :=
  if negb (text_truthy (path options))
  then stop (Failed (ErrorObject "Must provide options.path"))
  else if negb (text_truthy (token options)) && negb (text_truthy (this_token this))
  then stop (Failed (ErrorObject "Must provide PagerDuty access token"))
  else
    let options := default_token this options in
    let options := default_timeout this options in
    dispatch (mkRequest DELETE (baseUrl this ++ tpl (path options))
                        (mandatory_headers options) None None (timeout options)) answer.

End AxiosClient.

(* ================================================================== *)
(** ** Vocabulary of the properties *)

(** A page that reports [more: true] together with an integer [limit]. *)
Definition more_page (body : JV) : Prop :=
  exists o l, body = JObj o
              /\ obj_get "more" o = Some (JBool true)
              /\ obj_get "limit" o = Some (JNum l).

(** A page that reports [more: false]. *)
Definition last_page (body : JV) : Prop :=
  exists o, body = JObj o /\ obj_get "more" o = Some (JBool false).

(** A page whose body is an object without [more] and without [limit]. *)
Definition plain_page (body : JV) : Prop :=
  exists o, body = JObj o /\ obj_has "more" o = false /\ obj_has "limit" o = false.

(** What one page contributes: with a key, [body[key]], its elements when
    it is an array and the value itself otherwise; without a key, the whole
    body as one element (a body that is itself an array, which no page
    with a [more] field is, would be spread like any array). *)
Definition extracted (key : option string) (body : JV) : list JV :=
  if text_truthy key
  then match js_get body (tpl key) with
       | Some (JArr l) => l
       | Some x => [x]
       | None => []
       end
  else match body with
       | JArr l => l
       | _ => [body]
       end.

(** The integer a page reports as its [limit]. *)
Definition page_limit (body : JV) : Z :=
  match js_get body "limit" with
  | Some (JP (PNum l)) => l
  | _ => 0%Z
  end.

(** The cursor values of a walk that starts at [a] and advances by each
    limit in turn. *)
Fixpoint running (a : Z) (limits : list Z) : list Z :=
  match limits with
  | [] => [a]
  | l :: rest => a :: running (a + l) rest
  end.






Definition with_token (this : Client) (t : option string) : Client :=
  mkClient (env_TEST this) t (this_timeout this).

(** The checks [get] and [delete] make before any request: a path, and a
    token from the call or from the client. *)
Definition checks_pass (this : Client) (options : Options) : Prop :=
  text_truthy (path options) = true
  /\ text_truthy (token options) || text_truthy (this_token this) = true.

(** Sample data: a client as the tests build it, a listing call, two
    pages of users, and error bodies. *)
Definition demo_client : Client :=
  AxiosClient.constructor true (Some "fakeaccesstoken") None.

Definition demo_options : Options :=
  mkOptions (Some "users?query=Dev%20Null") (Some "users") None None None None.

Definition demo_page1 : JV :=
  JObj [("users", JArr [JObj [("id", JStr "PA")]; JObj [("id", JStr "PB")]]);
        ("limit", JNum 2); ("offset", JNum 0); ("more", JBool true)].

Definition demo_page2 : JV :=
  JObj [("users", JArr [JObj [("id", JStr "PC")]]);
        ("limit", JNum 2); ("offset", JNum 2); ("more", JBool false)].

Definition demo_user_options : Options :=
  mkOptions (Some "users/PA") (Some "user") None None None None.

Definition demo_single : JV :=
  JObj [("user", JObj [("id", JStr "PA")])].

(** A page that reports [more: true] with [limit: 0]. *)
Definition stuck_page : JV :=
  JObj [("users", JArr []); ("limit", JNum 0); ("more", JBool true)].

(** The body of the API's 404 answer: an [error] without [errors]. *)
Definition not_found_body : JV :=
  JObj [("error", JObj [("message", JStr "Not Found"); ("code", JNum 2100)])].


(** The checks [post] and [put] make before their request: a path, a body,
    and a token from the call or from the client. *)
Definition send_checks_pass (this : Client) (options : Options) : Prop :=
  text_truthy (path options) = true
  /\ value_truthy (body options) = true
  /\ text_truthy (token options) || text_truthy (this_token this) = true.

(** A call that is refused before any request: the callback receives an
    [Error] object and the transport is never invoked. *)
Definition refused {R} (r : Run R) : Prop :=
  requests r = [] /\ exists message, completion r = Failed (ErrorObject message).

(** The two mandatory headers for a token. *)
Definition mandatory_for (t : string) : Obj string :=
  [("Accept", "application/vnd.pagerduty+json;version=2");
   ("Authorization", "Token token=" ++ t)].


Definition caller_headers (options : Options) : Obj string :=
  match extra_headers options with Some h => h | None => [] end.


Definition demo_post_options : Options :=
  mkOptions (Some "users")
            None
            (Some (JObj [("user", JObj [("type", JStr "user"); ("name", JStr "Dev Null")])]))
            (Some [("From", "anotherdevnull@company.com")])
            None None.



(** [h] is the shallow merge of the mandatory headers for [t] with the
    caller's headers [extra]: the caller's value where the caller names the
    header, the mandatory value otherwise. *)
Definition merges (t : string) (extra h : Obj string) : Prop :=
  forall k, obj_get k h = match obj_get k extra with
                          | Some v => Some v
                          | None => obj_get k (mandatory_for t)
                          end.

(** The call sends exactly one request, with such headers. *)
Definition sends_merged {R} (t : string) (extra : Obj string) (r : Run R) : Prop :=
  exists req, requests r = [req] /\ merges t extra (headers req).




Definition fails_with {R} (e : CbError) (r : Run R) : Prop :=
  completion r = Failed e.

(** *** Vocabulary for the query string *)

(** A character that neither separates fields nor splits an address. *)
Definition plain_char (c : ascii) : bool :=
  negb (Ascii.eqb c "&") && negb (Ascii.eqb c "=") && negb (Ascii.eqb c "#")
  && negb (Ascii.eqb c "?") && negb (Ascii.eqb c "+").

(** The text [parse] reads back from what [stringify] prints for a
    value. *)
Definition prim_text (p : Prim) : string :=
  match p with
  | PStr s => s
  | PNum n => num_to_string n
  | PBool true => "true"
  | PBool false => "false"
  | PUndef | PNull | PNaN => EmptyString
  end.

Definition as_text (p : Prim) : Prim := PStr (prim_text p).

(** A property as [parse] reads it back after [stringify]. *)
Definition reread (kv : string * QVal) : string * QVal :=
  (fst kv, match snd kv with
           | QOne p => QOne (as_text p)
           | QMany l => QMany (List.map as_text l)
           end).

(** No key is enumerated after a key it should precede. *)
Fixpoint ordered (ks : list string) : Prop :=
  match ks with
  | [] => True
  | k :: t => Forall (fun k' => goes_before k' k = false) t /\ ordered t
  end.

Definition is_text (p : Prim) : Prop :=
  match p with PStr _ => True | _ => False end.

(** The values [parse] builds: a string, or an array of two or more
    strings. *)
Definition parsed_val (v : QVal) : Prop :=
  match v with
  | QOne p => is_text p
  | QMany l => (2 <= List.length l)%nat /\ Forall is_text l
  end.

(** The objects [parse] builds. *)
Definition parsed_obj (o : QObj) : Prop :=
  NoDup (obj_keys o) /\ ordered (obj_keys o) /\ Forall (fun kv => parsed_val (snd kv)) o.


(** The three defaults, and those of them an object lacks. *)
Definition defaults (offset : Prim) : QObj :=
  [("offset", QOne offset); ("total", QOne (PBool true)); ("limit", QOne (PNum 100))].

Definition added (offset : Prim) (qs : QObj) : QObj :=
  filter (fun kv => negb (obj_has (fst kv) qs)) (defaults offset).

(** The query text of an address, and the object [updateUrl] reads from
    it. *)
Definition query_of (address : string) : option string :=
  Url.query (Url.parse address).

Definition parsed_query (address : string) : QObj :=
  QueryString.parse (query_of address).

(** The keys of a query text in the order they are written, decoded. *)
Definition keys_of_pieces (pieces : list string) : list string :=
  List.map (fun piece => decode (fst (Str.cut "=" piece)))
           (filter (fun piece => negb (Str.is_empty piece)) pieces).

Definition written_keys (qs : option string) : list string :=
  match qs with
  | None => []
  | Some s => keys_of_pieces (Str.split "&" s)
  end.





(** *** Vocabulary for the further properties *)

(** The key of every field an object prints, in order. *)
Definition field_keys (o : QObj) : list string :=
  flat_map (fun kv => match snd kv with
                      | QOne _ => [fst kv]
                      | QMany l => List.map (fun _ => fst kv) l
                      end) o.

(** The characters a printed query is made of: unescaped ones, [%], [=]
    and [&]. *)
Definition query_char (c : ascii) : bool :=
  no_escape c || Ascii.eqb c "%" || Ascii.eqb c "=" || Ascii.eqb c "&".

(** A page whose [more] reads as truthy, and one whose [more] reads as
    falsy. *)
Definition more_truthy (body : JV) : Prop :=
  exists m, js_get body "more" = Some m /\ truthy m = true.

Definition more_falsy (body : JV) : Prop :=
  exists m, js_get body "more" = Some m /\ truthy m = false.

Definition with_key (options : Options) (k : option string) : Options :=
  mkOptions (path options) k (body options) (extra_headers options)
            (token options) (timeout options).

(** The timeout a call of the axios-based client runs with. *)
Definition resolved_timeout (this : Client) (options : Options) : Z :=
  match timeout options with
  | Some t => t
  | None => this_timeout this
  end.


(** A body on which [body.error.errors] cannot be read: text, or an object
    without [error]. *)
Definition unshaped_body (body : JV) : Prop :=
  (exists s, body = JStr s) \/ (exists o, body = JObj o /\ obj_has "error" o = false).

Definition demo_offset_options : Options :=
  mkOptions (Some "users?offset=5") (Some "users") None None None None.

Definition demo_timeout_options : Options :=
  mkOptions (Some "users/PA") (Some "user") None None None (Some 0%Z).

Definition demo_delete_options : Options :=
  mkOptions (Some "users/PA") None None None None None.


(* ================================================================== *)
(** * Properties *)

(** The expectations of [test/utils.test.js]. *)
Example updateUrl_test_none :
  updateUrl "http://localhost:3333/users?query=Test%20User" (PNum 10)
  = "http://localhost:3333/users?query=Test%20User&offset=10&total=true&limit=100".
Proof. reflexivity. Qed.

Example updateUrl_test_offset :
  updateUrl "http://localhost:3333/users?query=Test%20User&offset=5" PNull
  = "http://localhost:3333/users?query=Test%20User&offset=5&total=true&limit=100".
Proof. reflexivity. Qed.

Example updateUrl_test_total :
  updateUrl "http://localhost:3333/users?query=Test%20User&total=false" (PNum 10)
  = "http://localhost:3333/users?query=Test%20User&total=false&offset=10&limit=100".
Proof. reflexivity. Qed.

Example updateUrl_test_limit :
  updateUrl "http://localhost:3333/users?query=Test%20User&limit=100" (PNum 10)
  = "http://localhost:3333/users?query=Test%20User&limit=100&offset=10&total=true".
Proof. reflexivity. Qed.

Example updateUrl_test_all :
  updateUrl "http://localhost:3333/users?query=Test%20User&limit=100&total=false&offset=5" PNull
  = "http://localhost:3333/users?query=Test%20User&limit=100&total=false&offset=5".
Proof. reflexivity. Qed.

(* ================================================================== *)
(** ** Facts about strings *)

Module StrFacts.
Import Str.

Lemma app_nil_r (s : string) : s ++ "" = s.
Proof. induction s; simpl; congruence. Qed.

Lemma app_assoc (a b c : string) : (a ++ b) ++ c = a ++ b ++ c.
Proof. induction a; simpl; congruence. Qed.

Lemma all_app P (a b : string) : all P (a ++ b) = all P a && all P b.
Proof. induction a; simpl; [reflexivity|]. rewrite IHa, andb_assoc. reflexivity. Qed.

Lemma all_impl (P Q : ascii -> bool) (s : string) :
  (forall c, P c = true -> Q c = true) -> all P s = true -> all Q s = true.
Proof.
  intros HPQ. induction s; simpl; [reflexivity|].
  intros H. apply andb_true_iff in H. destruct H as [H1 H2].
  rewrite (HPQ _ H1), (IHs H2). reflexivity.
Qed.

Lemma lacks_app c (a b : string) : lacks c (a ++ b) = lacks c a && lacks c b.
Proof. apply all_app. Qed.

Lemma cut_lacks c (s : string) : lacks c s = true -> cut c s = (s, None).
Proof.
  induction s; simpl; [reflexivity|].
  intros H. apply andb_true_iff in H. destruct H as [H1 H2].
  apply negb_true_iff in H1. rewrite H1, (IHs H2). reflexivity.
Qed.

Lemma cut_at c (a b : string) :
  lacks c a = true -> cut c (a ++ String c b) = (a, Some b).
Proof.
  induction a; simpl.
  - intros _. rewrite Ascii.eqb_refl. reflexivity.
  - intros H. apply andb_true_iff in H. destruct H as [H1 H2].
    apply negb_true_iff in H1. rewrite H1, (IHa H2). reflexivity.
Qed.

Lemma cut_fst_lacks c (s : string) : lacks c (fst (cut c s)) = true.
Proof.
  induction s; simpl; [reflexivity|].
  destruct (Ascii.eqb a c) eqn:E; simpl; [reflexivity|].
  destruct (cut c s) as [h r]. simpl in *. unfold lacks in *. simpl.
  rewrite E. simpl. exact IHs.
Qed.

Lemma cut_fst_all P c (s : string) : all P s = true -> all P (fst (cut c s)) = true.
Proof.
  induction s; simpl; [reflexivity|].
  intros H. apply andb_true_iff in H. destruct H as [H1 H2].
  destruct (Ascii.eqb a c); simpl; [reflexivity|].
  specialize (IHs H2). destruct (cut c s) as [h r]. simpl in *.
  rewrite H1, IHs. reflexivity.
Qed.


Lemma split_lacks c (s : string) : lacks c s = true -> split c s = [s].
Proof.
  induction s; simpl; [reflexivity|].
  intros H. apply andb_true_iff in H. destruct H as [H1 H2].
  apply negb_true_iff in H1. rewrite H1, (IHs H2). reflexivity.
Qed.

Lemma split_at c (a b : string) :
  lacks c a = true -> split c (a ++ String c b) = a :: split c b.
Proof.
  induction a; simpl.
  - intros _. rewrite Ascii.eqb_refl. reflexivity.
  - intros H. apply andb_true_iff in H. destruct H as [H1 H2].
    apply negb_true_iff in H1. rewrite H1, (IHa H2). reflexivity.
Qed.

(** Splitting a joined list gives the list back, when no piece holds the
    separator. *)
Lemma split_join c (l : list string) :
  l <> [] ->
  Forall (fun x => lacks c x = true) l ->
  split c (join (String c "") l) = l.
Proof.
  induction l as [|x l IH]; [congruence|].
  intros _ H. inversion H as [|? ? Hx Hl]; subst.
  destruct l as [|y l].
  - simpl. apply split_lacks. exact Hx.
  - change (join (String c "") (x :: y :: l))
      with (x ++ String c (join (String c "") (y :: l))).
    rewrite split_at by exact Hx. f_equal. apply IH; [congruence|exact Hl].
Qed.

Lemma join_lacks c d (l : list string) :
  Ascii.eqb d c = false ->
  Forall (fun x => lacks c x = true) l ->
  lacks c (join (String d "") l) = true.
Proof.
  intros Hd. induction l as [|x l IH]; [reflexivity|].
  intros H. inversion H as [|? ? Hx Hl]; subst.
  destruct l as [|y l]; [exact Hx|].
  change (join (String d "") (x :: y :: l))
    with (x ++ String d (join (String d "") (y :: l))).
  rewrite lacks_app, Hx. unfold lacks at 1. simpl. rewrite Hd. simpl.
  apply IH. exact Hl.
Qed.

End StrFacts.

(* ================================================================== *)
(** ** Facts about objects *)

Section ObjFacts.
Context {V : Type}.
Implicit Types (o : Obj V) (k : string) (v : V).

Lemma obj_get_replace k k' v o :
  obj_get k (obj_replace k' v o)
  = if String.eqb k k' then (if obj_has k' o then Some v else None)
    else obj_get k o.
Proof.
  unfold obj_has. induction o as [|[k0 v0] o IH]; simpl.
  - destruct (String.eqb k k'); reflexivity.
  - destruct (String.eqb k' k0) eqn:E0; simpl.
    + apply String.eqb_eq in E0. subst k0.
      destruct (String.eqb k k'); reflexivity.
    + destruct (String.eqb k k0) eqn:E1.
      * apply String.eqb_eq in E1. subst k0.
        rewrite String.eqb_sym, E0. reflexivity.
      * exact IH.
Qed.

Lemma obj_get_insert k k' v o :
  obj_has k' o = false ->
  obj_get k (obj_insert k' v o) = if String.eqb k k' then Some v else obj_get k o.
Proof.
  unfold obj_has. induction o as [|[k0 v0] o IH]; simpl; intros H.
  - reflexivity.
  - destruct (String.eqb k' k0) eqn:E0; [discriminate|].
    destruct (goes_before k' k0); simpl.
    + reflexivity.
    + destruct (String.eqb k k0) eqn:E1.
      * apply String.eqb_eq in E1. subst k0.
        destruct (String.eqb k k') eqn:E2; [|reflexivity].
        apply String.eqb_eq in E2. subst k'. rewrite String.eqb_refl in E0.
        discriminate.
      * apply IH. exact H.
Qed.

(** Reading after an assignment. *)
Lemma obj_get_set k k' v o :
  obj_get k (obj_set k' v o) = if String.eqb k k' then Some v else obj_get k o.
Proof.
  unfold obj_set. destruct (obj_has k' o) eqn:H.
  - rewrite obj_get_replace, H. reflexivity.
  - apply obj_get_insert. exact H.
Qed.

Lemma obj_has_set k k' v o :
  obj_has k (obj_set k' v o) = String.eqb k k' || obj_has k o.
Proof.
  unfold obj_has at 1. rewrite obj_get_set. unfold obj_has.
  destruct (String.eqb k k'); reflexivity.
Qed.

Lemma obj_get_app k (o1 o2 : Obj V) :
  obj_get k (o1 ++ o2)%list
  = match obj_get k o1 with Some x => Some x | None => obj_get k o2 end.
Proof.
  induction o1 as [|[k0 v0] o1 IH]; simpl; [reflexivity|].
  destruct (String.eqb k k0); [reflexivity|exact IH].
Qed.

Lemma obj_has_app k (o1 o2 : Obj V) :
  obj_has k (o1 ++ o2)%list = obj_has k o1 || obj_has k o2.
Proof.
  unfold obj_has. rewrite obj_get_app. destruct (obj_get k o1); reflexivity.
Qed.

Lemma obj_has_In k o : obj_has k o = true <-> In k (obj_keys o).
Proof.
  unfold obj_has. induction o as [|[k0 v0] o IH]; simpl.
  - split; [discriminate|tauto].
  - destruct (String.eqb k k0) eqn:E.
    + apply String.eqb_eq in E. subst. split; auto.
    + apply String.eqb_neq in E. rewrite IH. split; [auto|].
      intros [H|H]; [congruence|exact H].
Qed.

(** Reading after [Object.assign]: the source's value where it has the
    property, the target's otherwise. *)
Lemma obj_get_assign k (target source : Obj V) :
  NoDup (obj_keys source) ->
  obj_get k (obj_assign target source)
  = match obj_get k source with Some x => Some x | None => obj_get k target end.
Proof.
  unfold obj_assign. revert target.
  induction source as [|[k0 v0] source IH]; simpl; intros target Hnd.
  - reflexivity.
  - inversion Hnd as [|? ? Hnotin Hnd']; subst.
    rewrite IH by exact Hnd'. rewrite obj_get_set.
    destruct (String.eqb k k0) eqn:E.
    + apply String.eqb_eq in E. subst k0.
      destruct (obj_get k source) eqn:G; [|reflexivity].
      exfalso. apply Hnotin. apply obj_has_In. unfold obj_has. rewrite G. reflexivity.
    + reflexivity.
Qed.

End ObjFacts.

(* ================================================================== *)
(** ** Facts about pages *)

Lemma more_page_steps options results body :
  more_page body ->
  accumulate options results body
    = Some (results ++ extracted (key options) body)%list
  /\ js_get body "more" = Some (JBool true)
  /\ js_get body "limit" = Some (JNum (page_limit body)).
Proof.
  intros (o & l & -> & Hm & Hl). unfold accumulate, extracted, page_limit.
  simpl. rewrite Hm, Hl. simpl. repeat split.
  destruct (text_truthy (key options)); [|reflexivity].
  destruct (obj_get (tpl (key options)) o) as [[p|a|o']|]; reflexivity.
Qed.

Lemma last_page_steps options results body :
  last_page body ->
  accumulate options results body
    = Some (results ++ extracted (key options) body)%list
  /\ js_get body "more" = Some (JBool false).
Proof.
  intros (o & -> & Hm). unfold accumulate, extracted. simpl. rewrite Hm.
  split; [|reflexivity].
  destruct (text_truthy (key options)); [|reflexivity].
  destruct (obj_get (tpl (key options)) o) as [[p|a|o']|]; reflexivity.
Qed.

Lemma plain_page_steps options results body :
  plain_page body ->
  accumulate options results body
    = Some (results ++ extracted (key options) body)%list
  /\ js_get body "more" = Some JUndef.
Proof.
  intros (o & -> & Hm & _). unfold accumulate, extracted, obj_has in *. simpl.
  destruct (obj_get "more" o); [discriminate|].
  split; [|reflexivity].
  destruct (text_truthy (key options)); [|reflexivity].
  destruct (obj_get (tpl (key options)) o) as [[p|a|o']|]; reflexivity.
Qed.

Lemma extracted_objects key pages :
  text_truthy key = false ->
  Forall (fun page => exists o, page = JObj o) pages ->
  flat_map (extracted key) pages = pages.
Proof.
  intros Hk Hall. induction Hall as [|page pages [o ->] _ IH]; [reflexivity|].
  simpl. unfold extracted at 1. rewrite Hk. simpl. rewrite IH. reflexivity.
Qed.

Lemma js_add_num a l : js_add (PNum a) (JNum l) = PNum (a + l).
Proof. reflexivity. Qed.

Lemma running_length a limits : List.length (running a limits) = S (List.length limits).
Proof. revert a. induction limits; simpl; intros; [reflexivity|]. rewrite IHlimits. reflexivity. Qed.


Lemma flat_map_length_sum {A B} (f : A -> list B) (l : list A) :
  List.length (flat_map f l) = list_sum (List.map (fun x => List.length (f x)) l).
Proof.
  induction l; simpl; [reflexivity|]. rewrite length_app, IHl. reflexivity.
Qed.

(** *** The page loop of the axios-based client *)

Lemma axios_query_pages this options bodies last offset results :
  Forall more_page bodies ->
  (last_page last \/ plain_page last) ->
  forall rest,
  let r := AxiosClient.query this options (PNum offset) results
             (List.map (Response 200) (bodies ++ [last]) ++ rest) in
  completion r
    = Succeeded (results ++ flat_map (extracted (key options)) (bodies ++ [last]))%list
  /\ List.length (requests r) = S (List.length bodies)
  /\ cursors r = List.map PNum (running offset (List.map page_limit bodies)).
Proof.
  intros Hb Hlast rest. revert offset results.
  induction Hb as [|body bodies Hbody _ IH]; intros offset results.
  - simpl. rewrite app_nil_r.
    assert (Hs : accumulate options results last
                 = Some (results ++ extracted (key options) last)%list
               /\ exists m, js_get last "more" = Some m /\ truthy m = false).
    { destruct Hlast as [H|H].
      - destruct (last_page_steps options results last H) as [H1 H2]. eauto.
      - destruct (plain_page_steps options results last H) as [H1 H2]. eauto. }
    destruct Hs as (Ha & m & Hm & Ht). rewrite Ha, Hm, Ht. simpl. auto.
  - destruct (more_page_steps options results body Hbody) as (Ha & Hm & Hl).
    specialize (IH (offset + page_limit body)%Z
                   (results ++ extracted (key options) body)%list).
    simpl in *. rewrite Ha, Hm, Hl. simpl. rewrite js_add_num.
    destruct IH as (IH1 & IH2 & IH3). rewrite IH1, IH2, IH3.
    rewrite <- app_assoc. auto.
Qed.


(** *** The page loop of the request-based client *)

Lemma request_query_pages this options bodies last offset results :
  Forall more_page bodies ->
  (last_page last \/ plain_page last) ->
  forall rest,
  let r := RequestClient.query this options (PNum offset) results
             (List.map (Response 200) (bodies ++ [last]) ++ rest) in
  completion r
    = Succeeded (results ++ flat_map (extracted (key options)) (bodies ++ [last]))%list
  /\ List.length (requests r) = S (List.length bodies)
  /\ cursors r = List.map PNum (running offset (List.map page_limit bodies)).
Proof.
  intros Hb Hlast rest. revert offset results.
  induction Hb as [|body bodies Hbody _ IH]; intros offset results.
  - simpl. rewrite app_nil_r.
    assert (Hs : accumulate options results last
                 = Some (results ++ extracted (key options) last)%list
               /\ exists m, js_get last "more" = Some m /\ truthy m = false).
    { destruct Hlast as [H|H].
      - destruct (last_page_steps options results last H) as [H1 H2]. eauto.
      - destruct (plain_page_steps options results last H) as [H1 H2]. eauto. }
    destruct Hs as (Ha & m & Hm & Ht). rewrite Ha, Hm, Ht. simpl. auto.
  - destruct (more_page_steps options results body Hbody) as (Ha & Hm & Hl).
    specialize (IH (offset + page_limit body)%Z
                   (results ++ extracted (key options) body)%list).
    simpl in *. rewrite Ha, Hm, Hl. simpl. rewrite js_add_num.
    destruct IH as (IH1 & IH2 & IH3). rewrite IH1, IH2, IH3.
    rewrite <- app_assoc. auto.
Qed.



(** Every request of a GET call carries the URL that [updateUrl] builds
    from the cursor of its [query] invocation. *)
Lemma axios_query_urls this options script : forall offset results,
  let r := AxiosClient.query this options offset results script in
  List.map url (requests r)
  = List.map (updateUrl (baseUrl this ++ tpl (path options))) (cursors r).
Proof.
  induction script as [|[err|status body] script IH]; intros offset results; simpl.
  - reflexivity.
  - reflexivity.
  - destruct (AxiosClient.resolves status); [|reflexivity].
    destruct (negb (status =? 200)%Z); [reflexivity|].
    destruct (accumulate options results body); [|reflexivity].
    destruct (js_get body "more") as [more|]; [|reflexivity].
    destruct (truthy more); [|reflexivity].
    destruct (js_get body "limit") as [limit|]; [|reflexivity].
    simpl. f_equal. apply IH.
Qed.

Lemma request_query_urls this options script : forall offset results,
  let r := RequestClient.query this options offset results script in
  List.map url (requests r)
  = List.map (updateUrl (baseUrl this ++ tpl (path options))) (cursors r).
Proof.
  induction script as [|[err|status body] script IH]; intros offset results; simpl.
  - reflexivity.
  - reflexivity.
  - destruct (negb (status =? 200)%Z); [reflexivity|].
    destruct (accumulate options results body); [|reflexivity].
    destruct (js_get body "more") as [more|]; [|reflexivity].
    destruct (truthy more); [|reflexivity].
    destruct (js_get body "limit") as [limit|]; [|reflexivity].
    simpl. f_equal. apply IH.
Qed.

(** *** From [query] to [get] *)

Lemma key_defaults this options :
  key (default_timeout this (default_token this options)) = key options.
Proof.
  unfold default_timeout, default_token.
  destruct (negb (text_truthy (token options))); simpl;
    destruct (timeout options); reflexivity.
Qed.

Lemma path_defaults this options :
  path (default_timeout this (default_token this options)) = path options.
Proof.
  unfold default_timeout, default_token.
  destruct (negb (text_truthy (token options))); simpl;
    destruct (timeout options); reflexivity.
Qed.

Lemma key_default_token this options : key (default_token this options) = key options.
Proof. unfold default_token. destruct (negb (text_truthy (token options))); reflexivity. Qed.

Lemma path_default_token this options : path (default_token this options) = path options.
Proof. unfold default_token. destruct (negb (text_truthy (token options))); reflexivity. Qed.

Lemma axios_get_query this options script :
  checks_pass this options ->
  AxiosClient.get this options script
  = AxiosClient.query this (default_timeout this (default_token this options))
                      (PNum 0) [] script.
Proof.
  intros [Hp Ht]. unfold AxiosClient.get. rewrite Hp. simpl.
  rewrite <- negb_orb, Ht. reflexivity.
Qed.

Lemma request_get_query this options script :
  checks_pass this options ->
  RequestClient.get this options script
  = RequestClient.query this (default_token this options) (PNum 0) [] script.
Proof.
  intros [Hp Ht]. unfold RequestClient.get. rewrite Hp. simpl.
  rewrite <- negb_orb, Ht. reflexivity.
Qed.

(* ================================================================== *)
(** ** Pagination *)

(** C1.  A paginated GET over N pages, of which all but the last report
    [more: true] with an integer [limit] and the last reports
    [more: false], hands exactly N requests to the transport and calls back
    with the concatenation, in page order, of what each page contributes:
    with a key, [body[key]], its elements when it is an array; without a
    key, the whole body as one element, so that the result is the list of
    the bodies.  The length of the result is the sum of the lengths of the
    contributions.  Both clients. *)
Theorem C1_get_collects_all_pages this options bodies last :
  checks_pass this options ->
  Forall more_page bodies ->
  last_page last ->
  let pages := (bodies ++ [last])%list in
  let script := List.map (Response 200) pages in
  let expected := flat_map (extracted (key options)) pages in
  (List.length (requests (AxiosClient.get this options script)) = List.length pages
   /\ completion (AxiosClient.get this options script) = Succeeded expected)
  /\ (List.length (requests (RequestClient.get this options script)) = List.length pages
      /\ completion (RequestClient.get this options script) = Succeeded expected)
  /\ List.length expected
     = list_sum (List.map (fun page => List.length (extracted (key options) page)) pages)
  /\ (forall page l, text_truthy (key options) = true ->
        js_get page (tpl (key options)) = Some (JArr l) ->
        extracted (key options) page = l)
  /\ (text_truthy (key options) = false -> expected = pages).
Proof.
  intros Hc Hb Hl pages script expected. subst pages script expected.
  rewrite axios_get_query, request_get_query by exact Hc.
  rewrite length_app, Nat.add_comm. simpl.
  destruct (axios_query_pages this (default_timeout this (default_token this options))
              bodies last 0 [] Hb (or_introl Hl) []) as (A1 & A2 & _).
  destruct (request_query_pages this (default_token this options)
              bodies last 0 [] Hb (or_introl Hl) []) as (R1 & R2 & _).
  rewrite app_nil_r in A1, A2, R1, R2.
  rewrite key_defaults in A1. rewrite key_default_token in R1.
  split; [split; assumption|]. split; [split; assumption|].
  split; [apply flat_map_length_sum|]. split.
  - intros page l Hk Hg. unfold extracted. rewrite Hk, Hg. reflexivity.
  - intros Hk.
    assert (Hall : Forall (fun page => exists o, page = JObj o) (bodies ++ [last])).
    { apply Forall_app. split.
      - eapply Forall_impl; [|exact Hb]. intros page (o & l & -> & _). eauto.
      - constructor; [|constructor]. destruct Hl as (o & -> & _). eauto. }
    apply extracted_objects; assumption.
Qed.

(** C8.  A 200 response whose body has neither [more] nor [limit] ends the
    loop: one request, and the result is that page's contribution alone,
    whatever else the server could have answered.  Both clients. *)
Theorem C8_page_without_more_is_last this options body rest :
  checks_pass this options ->
  plain_page body ->
  let script := Response 200 body :: rest in
  (List.length (requests (AxiosClient.get this options script)) = 1%nat
   /\ completion (AxiosClient.get this options script)
      = Succeeded (extracted (key options) body))
  /\ (List.length (requests (RequestClient.get this options script)) = 1%nat
      /\ completion (RequestClient.get this options script)
         = Succeeded (extracted (key options) body)).
Proof.
  intros Hc Hp script. subst script.
  rewrite axios_get_query, request_get_query by exact Hc.
  destruct (axios_query_pages this (default_timeout this (default_token this options))
              [] body 0 [] (Forall_nil _) (or_intror Hp) rest) as (A1 & A2 & _).
  destruct (request_query_pages this (default_token this options)
              [] body 0 [] (Forall_nil _) (or_intror Hp) rest) as (R1 & R2 & _).
  simpl in A1, A2, R1, R2. rewrite app_nil_r in A1, R1.
  rewrite key_defaults in A1. rewrite key_default_token in R1.
  repeat split; assumption.
Qed.

Lemma C1_get_collects_all_pages_witness :
  checks_pass demo_client demo_options
  /\ Forall more_page [demo_page1]
  /\ last_page demo_page2
  /\ let pages := [demo_page1; demo_page2] in
     let script := List.map (Response 200) pages in
     let expected := flat_map (extracted (key demo_options)) pages in
     (List.length (requests (AxiosClient.get demo_client demo_options script))
      = List.length pages
      /\ completion (AxiosClient.get demo_client demo_options script)
         = Succeeded expected)
     /\ (List.length (requests (RequestClient.get demo_client demo_options script))
         = List.length pages
         /\ completion (RequestClient.get demo_client demo_options script)
            = Succeeded expected)
     /\ List.length expected
        = list_sum (List.map (fun page =>
                                List.length (extracted (key demo_options) page)) pages)
     /\ (forall page l, text_truthy (key demo_options) = true ->
           js_get page (tpl (key demo_options)) = Some (JArr l) ->
           extracted (key demo_options) page = l)
     /\ (text_truthy (key demo_options) = false -> expected = pages).
Proof.
  assert (H1 : checks_pass demo_client demo_options) by (split; reflexivity).
  assert (H2 : Forall more_page [demo_page1]).
  { constructor; [|constructor].
    exists [("users", JArr [JObj [("id", JStr "PA")]; JObj [("id", JStr "PB")]]);
            ("limit", JNum 2); ("offset", JNum 0); ("more", JBool true)], 2%Z.
    repeat split. }
  assert (H3 : last_page demo_page2) by (eexists; split; reflexivity).
  split; [exact H1|]. split; [exact H2|]. split; [exact H3|].
  exact (C1_get_collects_all_pages demo_client demo_options [demo_page1] demo_page2
           H1 H2 H3).
Defined.

Lemma C8_page_without_more_is_last_witness :
  checks_pass demo_client demo_user_options
  /\ plain_page demo_single
  /\ let script := [Response 200 demo_single; Response 200 demo_page2] in
     (List.length (requests (AxiosClient.get demo_client demo_user_options script)) = 1%nat
      /\ completion (AxiosClient.get demo_client demo_user_options script)
         = Succeeded (extracted (key demo_user_options) demo_single))
     /\ (List.length (requests (RequestClient.get demo_client demo_user_options script)) = 1%nat
         /\ completion (RequestClient.get demo_client demo_user_options script)
            = Succeeded (extracted (key demo_user_options) demo_single)).
Proof.
  assert (H1 : checks_pass demo_client demo_user_options) by (split; reflexivity).
  assert (H2 : plain_page demo_single) by (eexists; repeat split).
  split; [exact H1|]. split; [exact H2|].
  exact (C8_page_without_more_is_last demo_client demo_user_options demo_single
           [Response 200 demo_page2] H1 H2).
Defined.




(* ================================================================== *)
(** ** Failing pages *)




(** C2.  In the request-based client, page 2 of 3 answering 404 with the
    API's error body (an [error] object without [errors]) makes the
    response handler raise while it builds the message: the callback is
    never called, so the caller receives no error at all.  Page 3 is not
    requested and page 1's elements are not delivered.  The axios-based
    client, on the same input, calls back with the status text. *)
Theorem C2_request_client_raises_on_404_body :
  let script := [Response 200 demo_page1; Response 404 not_found_body;
                 Response 200 demo_page2] in
  completion (RequestClient.get demo_client demo_options script) = Uncaught
  /\ List.length (requests (RequestClient.get demo_client demo_options script)) = 2%nat
  /\ completion (AxiosClient.get demo_client demo_options script)
     = Failed (ErrorText (AxiosClient.status_text 404 not_found_body))
  /\ List.length (requests (AxiosClient.get demo_client demo_options script)) = 2%nat.
Proof. repeat split. Qed.

(* ================================================================== *)
(** ** Tokens and headers *)

Lemma token_defaults this options :
  token (default_timeout this (default_token this options))
  = token (default_token this options).
Proof. unfold default_timeout. destruct (timeout (default_token this options)); reflexivity. Qed.


Lemma merged_headers_timeout this options :
  merged_headers (default_timeout this options) = merged_headers options.
Proof. unfold default_timeout. destruct (timeout options); reflexivity. Qed.

Lemma body_defaults this options :
  body (default_timeout this (default_token this options)) = body options.
Proof.
  unfold default_timeout, default_token.
  destruct (negb (text_truthy (token options))); simpl;
    destruct (timeout options); reflexivity.
Qed.


Lemma mandatory_headers_for options t :
  token options = Some t -> mandatory_headers options = mandatory_for t.
Proof. intros H. unfold mandatory_headers, mandatory_for. rewrite H. reflexivity. Qed.

Lemma merged_headers_for options t :
  token options = Some t ->
  merged_headers options = obj_assign (mandatory_for t) (caller_headers options).
Proof.
  intros H. unfold merged_headers, caller_headers.
  rewrite (mandatory_headers_for options t H). reflexivity.
Qed.



Lemma axios_dispatch_requests req answer :
  requests (AxiosClient.dispatch req answer) = [req].
Proof.
  unfold AxiosClient.dispatch. destruct answer as [[err|status data]|]; try reflexivity.
  destruct (AxiosClient.resolves status); [|reflexivity].
  destruct (negb (status =? expected_status (method req))%Z); reflexivity.
Qed.

Lemma request_dispatch_requests req answer :
  requests (RequestClient.dispatch req answer) = [req].
Proof.
  unfold RequestClient.dispatch. destruct answer as [[err|status data]|]; try reflexivity.
  destruct (negb (status =? expected_status (method req))%Z); reflexivity.
Qed.





Lemma checks_resolve this options :
  text_truthy (token options) || text_truthy (this_token this) = true ->
  exists t, token (default_token this options) = Some t.
Proof.
  unfold default_token. intros H.
  destruct (text_truthy (token options)) eqn:E; simpl in *.
  - destruct (token options); [eauto|discriminate].
  - destruct (this_token this); [eauto|discriminate].
Qed.

(** C9.  For [post] and [put] of both clients, the one request sent
    carries the shallow merge of the two mandatory headers ([Accept] and
    [Authorization], built from the resolved token) with the caller's
    headers: a caller header with the name of a mandatory one replaces its
    value, and every other caller header stands beside both mandatory
    ones. *)
Theorem C9_headers_are_merged this options :
  send_checks_pass this options ->
  NoDup (obj_keys (caller_headers options)) ->
  exists t,
    token (default_token this options) = Some t
    /\ obj_get "Accept" (mandatory_for t)
       = Some "application/vnd.pagerduty+json;version=2"
    /\ obj_get "Authorization" (mandatory_for t) = Some ("Token token=" ++ t)
    /\ forall answer,
         sends_merged t (caller_headers options) (AxiosClient.post this options answer)
         /\ sends_merged t (caller_headers options) (AxiosClient.put this options answer)
         /\ sends_merged t (caller_headers options) (RequestClient.post this options answer)
         /\ sends_merged t (caller_headers options) (RequestClient.put this options answer).
Proof.
  intros (Hp & Hb & Ht) Hnd.
  destruct (checks_resolve this options Ht) as [t Htok].
  exists t. split; [exact Htok|]. split; [reflexivity|]. split; [reflexivity|].
  assert (Hx : caller_headers (default_token this options) = caller_headers options).
  { unfold caller_headers, default_token.
    destruct (negb (text_truthy (token options))); reflexivity. }
  assert (Hm : merges t (caller_headers options) (merged_headers (default_token this options))).
  { intros k. rewrite (merged_headers_for _ t Htok), Hx.
    apply obj_get_assign. exact Hnd. }
  intros answer. unfold sends_merged.
  unfold AxiosClient.post, AxiosClient.put, RequestClient.post, RequestClient.put.
  rewrite Hp, Hb. simpl. rewrite <- negb_orb, Ht. simpl.
  rewrite !axios_dispatch_requests, !request_dispatch_requests.
  repeat split; eexists; (split; [reflexivity|]); simpl;
    rewrite ?merged_headers_timeout; exact Hm.
Qed.

Lemma C9_headers_are_merged_witness :
  send_checks_pass demo_client demo_post_options
  /\ NoDup (obj_keys (caller_headers demo_post_options))
  /\ exists t,
       token (default_token demo_client demo_post_options) = Some t
       /\ obj_get "Accept" (mandatory_for t)
          = Some "application/vnd.pagerduty+json;version=2"
       /\ obj_get "Authorization" (mandatory_for t) = Some ("Token token=" ++ t)
       /\ forall answer,
            sends_merged t (caller_headers demo_post_options)
              (AxiosClient.post demo_client demo_post_options answer)
            /\ sends_merged t (caller_headers demo_post_options)
                 (AxiosClient.put demo_client demo_post_options answer)
            /\ sends_merged t (caller_headers demo_post_options)
                 (RequestClient.post demo_client demo_post_options answer)
            /\ sends_merged t (caller_headers demo_post_options)
                 (RequestClient.put demo_client demo_post_options answer).
Proof.
  assert (H1 : send_checks_pass demo_client demo_post_options)
    by (repeat split; reflexivity).
  assert (H2 : NoDup (obj_keys (caller_headers demo_post_options))).
  { simpl. constructor; [intros []|constructor]. }
  split; [exact H1|]. split; [exact H2|].
  exact (C9_headers_are_merged demo_client demo_post_options H1 H2).
Defined.

(** A caller header named like a mandatory one wins; another one is
    added. *)
Example header_merge_override :
  merged_headers (mkOptions (Some "users") None (Some (JObj []))
                    (Some [("From", "a@b.c"); ("Accept", "application/json")])
                    (Some "tok") None)
  = [("Accept", "application/json"); ("Authorization", "Token token=tok");
     ("From", "a@b.c")].
Proof. reflexivity. Qed.

(* ================================================================== *)
(** ** Status codes and error values *)















(* ================================================================== *)
(** ** Facts about [querystring] *)

Module QsFacts.
Import Str StrFacts.

Lemma escape_char_plain c : all plain_char (escape_char c) = true.
Proof. destruct c as [[] [] [] [] [] [] [] []]; reflexivity. Qed.

Lemma escape_plain s : all plain_char (escape s) = true.
Proof.
  induction s; simpl; [reflexivity|].
  rewrite all_app, escape_char_plain, IHs. reflexivity.
Qed.

Lemma unescape_escape_char c rest :
  unescape (escape_char c ++ rest) = String c (unescape rest).
Proof. destruct c as [[] [] [] [] [] [] [] []]; reflexivity. Qed.

Lemma unescape_escape s : unescape (escape s) = s.
Proof.
  induction s; simpl; [reflexivity|].
  rewrite unescape_escape_char, IHs. reflexivity.
Qed.

Lemma plus_to_space_plain s :
  all plain_char s = true -> Str.map plus_to_space s = s.
Proof.
  induction s; simpl; [reflexivity|].
  intros H. apply andb_true_iff in H. destruct H as [H1 H2].
  rewrite (IHs H2). f_equal.
  unfold plus_to_space. unfold plain_char in H1.
  destruct (Ascii.eqb a "+"); [|reflexivity].
  rewrite !andb_false_r in H1. discriminate.
Qed.

(** [parse] reads back what [escape] wrote. *)
Lemma decode_escape s : decode (escape s) = s.
Proof.
  unfold decode. rewrite plus_to_space_plain by apply escape_plain.
  apply unescape_escape.
Qed.

Lemma plain_lacks c s :
  plain_char c = false -> all plain_char s = true -> lacks c s = true.
Proof.
  intros Hc. unfold lacks. apply all_impl. intros a Ha.
  destruct (Ascii.eqb a c) eqn:E; [|reflexivity].
  apply Ascii.eqb_eq in E. subst. congruence.
Qed.

Lemma escape_id s : all no_escape s = true -> escape s = s.
Proof.
  induction s; simpl; [reflexivity|].
  intros H. apply andb_true_iff in H. destruct H as [H1 H2].
  rewrite (IHs H2). unfold escape_char. rewrite H1. reflexivity.
Qed.

Lemma uint_text_plain d : all no_escape (NilEmpty.string_of_uint d) = true.
Proof. induction d; simpl; try assumption; reflexivity. Qed.

Lemma num_to_string_plain n : all no_escape (num_to_string n) = true.
Proof.
  unfold num_to_string, NilZero.string_of_int, NilZero.string_of_uint.
  destruct (Z.to_int n) as [d|d]; destruct d; try reflexivity;
    simpl; apply uint_text_plain.
Qed.

(** What [stringify] prints for a value is the escaped text of the
    value. *)
Lemma stringify_primitive_text p : stringify_primitive p = escape (prim_text p).
Proof.
  destruct p as [| |[]|n| |s]; try reflexivity.
  simpl. symmetry. apply escape_id. apply num_to_string_plain.
Qed.

Lemma field_text k p : field k p = escape k ++ String "=" (escape (prim_text p)).
Proof. unfold field. rewrite stringify_primitive_text. reflexivity. Qed.


Lemma field_lacks c k p :
  plain_char c = false -> Ascii.eqb "=" c = false -> lacks c (field k p) = true.
Proof.
  intros Hc He. rewrite field_text, lacks_app.
  rewrite (plain_lacks c _ Hc (escape_plain k)).
  change (lacks c (String "=" (escape (prim_text p))))
    with (negb (Ascii.eqb "=" c) && lacks c (escape (prim_text p))).
  rewrite He. apply (plain_lacks c _ Hc (escape_plain _)).
Qed.


End QsFacts.

(* ================================================================== *)
(** ** Facts about property order *)

Section OrderFacts.
Context {V : Type}.
Implicit Types (o : Obj V) (k : string) (v : V).

Lemma goes_before_asym a b : goes_before a b = true -> goes_before b a = false.
Proof.
  unfold goes_before.
  destruct (array_index a) as [m|], (array_index b) as [n|]; try congruence.
  intros H. apply N.ltb_lt in H. apply N.ltb_ge. lia.
Qed.

Lemma goes_before_chain k k' b :
  goes_before k k' = true -> goes_before b k' = false -> goes_before b k = false.
Proof.
  unfold goes_before.
  destruct (array_index k) as [m|], (array_index k') as [n|],
           (array_index b) as [q|]; try congruence.
  intros H1 H2. apply N.ltb_lt in H1. apply N.ltb_ge in H2. apply N.ltb_ge. lia.
Qed.

Lemma goes_before_plain_key k k' : array_index k = None -> goes_before k k' = false.
Proof. unfold goes_before. intros ->. reflexivity. Qed.

Lemma obj_insert_split k v o :
  exists o1 o2, o = (o1 ++ o2)%list
                /\ obj_insert k v o = (o1 ++ (k, v) :: o2)%list
                /\ Forall (fun k0 => goes_before k k0 = false) (obj_keys o1)
                /\ match o2 with
                   | [] => True
                   | kv :: _ => goes_before k (fst kv) = true
                   end.
Proof.
  induction o as [|[k0 v0] o IH]; simpl.
  - exists [], []. repeat split. constructor.
  - destruct (goes_before k k0) eqn:E.
    + exists [], ((k0, v0) :: o). repeat split; [constructor|exact E].
    + destruct IH as (o1 & o2 & H1 & H2 & H3 & H4).
      exists ((k0, v0) :: o1), o2. simpl. rewrite H2, <- H1.
      repeat split; [constructor; assumption|exact H4].
Qed.

Lemma obj_replace_split k v o old :
  obj_get k o = Some old ->
  exists o1 o2, o = (o1 ++ (k, old) :: o2)%list
                /\ obj_replace k v o = (o1 ++ (k, v) :: o2)%list.
Proof.
  induction o as [|[k0 v0] o IH]; simpl; [discriminate|].
  destruct (String.eqb k k0) eqn:E.
  - apply String.eqb_eq in E. subst k0. intros [= ->].
    exists [], o. split; reflexivity.
  - intros H. destruct (IH H) as (o1 & o2 & H1 & H2).
    exists ((k0, v0) :: o1), o2. simpl. rewrite H2, <- H1. split; reflexivity.
Qed.

(** A key that no existing key must follow is created last. *)
Lemma obj_insert_last k v o :
  Forall (fun k0 => goes_before k k0 = false) (obj_keys o) ->
  obj_insert k v o = (o ++ [(k, v)])%list.
Proof.
  induction o as [|[k0 v0] o IH]; simpl; [reflexivity|].
  intros H. inversion H as [|? ? H1 H2]; subst.
  rewrite H1, (IH H2). reflexivity.
Qed.

Lemma obj_set_new_plain k v o :
  obj_has k o = false -> array_index k = None ->
  obj_set k v o = (o ++ [(k, v)])%list.
Proof.
  intros Hh Hk. unfold obj_set. rewrite Hh. apply obj_insert_last.
  apply Forall_forall. intros k0 _. apply goes_before_plain_key. exact Hk.
Qed.

Lemma ordered_app ks1 ks2 :
  ordered (ks1 ++ ks2)
  <-> ordered ks1 /\ ordered ks2
      /\ Forall (fun a => Forall (fun b => goes_before b a = false) ks2) ks1.
Proof.
  induction ks1 as [|a ks1 IH]; simpl.
  - split; [intros H; repeat split; [exact H|constructor]|tauto].
  - rewrite IH, Forall_app. split.
    + intros ((H1 & H2) & H3 & H4 & H5). repeat split; try assumption.
      constructor; assumption.
    + intros ((H1 & H2) & H3 & H4). inversion H4; subst. tauto.
Qed.

Lemma ordered_insert k v o :
  ordered (obj_keys o) -> ordered (obj_keys (obj_insert k v o)).
Proof.
  intros Ho. destruct (obj_insert_split k v o) as (o1 & o2 & H1 & H2 & H3 & H4).
  rewrite H2. subst o. unfold obj_keys in *. rewrite map_app in *. simpl.
  apply ordered_app in Ho. destruct Ho as (Ho1 & Ho2 & Hcross).
  apply ordered_app. split; [exact Ho1|]. split.
  - simpl. split; [|exact Ho2].
    destruct o2 as [|[k2 v2] o2]; [constructor|]. simpl in *.
    destruct Ho2 as [Ho2 _]. constructor.
    + apply goes_before_asym. exact H4.
    + eapply Forall_impl; [|exact Ho2]. intros b Hb. simpl in Hb.
      eapply goes_before_chain; eassumption.
  - apply Forall_forall. intros a Ha. constructor.
    + rewrite Forall_forall in H3. apply H3. exact Ha.
    + rewrite Forall_forall in Hcross. apply Hcross. exact Ha.
Qed.

Lemma keys_insert k v o x :
  In x (obj_keys (obj_insert k v o)) <-> x = k \/ In x (obj_keys o).
Proof.
  destruct (obj_insert_split k v o) as (o1 & o2 & H1 & H2 & _).
  rewrite H2. subst o. unfold obj_keys. rewrite !map_app, !in_app_iff. simpl.
  intuition congruence.
Qed.

Lemma nodup_insert k v o :
  obj_has k o = false -> NoDup (obj_keys o) -> NoDup (obj_keys (obj_insert k v o)).
Proof.
  intros Hh Hn. destruct (obj_insert_split k v o) as (o1 & o2 & H1 & H2 & _).
  rewrite H2. subst o. unfold obj_keys in *. rewrite map_app in *. simpl.
  apply (NoDup_Add (Add_app k _ _)). split; [exact Hn|].
  intros Hin. rewrite <- map_app in Hin.
  assert (obj_has k (o1 ++ o2)%list = true) by (apply obj_has_In; exact Hin).
  congruence.
Qed.

Lemma keys_replace k v o : obj_keys (obj_replace k v o) = obj_keys o.
Proof.
  induction o as [|[k0 v0] o IH]; simpl; [reflexivity|].
  destruct (String.eqb k k0); simpl; [reflexivity|]. rewrite IH. reflexivity.
Qed.

Lemma obj_get_In k o x : obj_get k o = Some x -> In (k, x) o.
Proof.
  induction o as [|[k0 v0] o IH]; simpl; [discriminate|].
  destruct (String.eqb k k0) eqn:E.
  - apply String.eqb_eq in E. subst. intros [= ->]. left. reflexivity.
  - intros H. right. apply IH. exact H.
Qed.


End OrderFacts.

(* ================================================================== *)
(** ** What [parse] builds, and reading back what [stringify] prints *)

Module ParseFacts.
Import Str StrFacts QsFacts.

Lemma fields_app (o1 o2 : QObj) : fields (o1 ++ o2)%list = (fields o1 ++ fields o2)%list.
Proof. apply flat_map_app. Qed.

Lemma fields_cons kv (o : QObj) : fields (kv :: o) = (fields [kv] ++ fields o)%list.
Proof. apply (fields_app [kv] o). Qed.




Lemma parsed_val_in (o : QObj) k x :
  Forall (fun kv => parsed_val (snd kv)) o -> obj_get k o = Some x -> parsed_val x.
Proof.
  intros Hf Hg. rewrite Forall_forall in Hf.
  exact (Hf _ (obj_get_In k o x Hg)).
Qed.

(** [addKeyValue] keeps the shape of a parsed object and adds one field. *)
Lemma addKeyValue_parsed o k v :
  parsed_obj o ->
  parsed_obj (addKeyValue o k v)
  /\ List.length (fields (addKeyValue o k v)) = S (List.length (fields o)).
Proof.
  intros (Hn & Ho & Hv). unfold addKeyValue.
  destruct (obj_get k o) as [x|] eqn:G.
  - pose proof (parsed_val_in o k x Hv G) as Hx.
    assert (Hh : obj_has k o = true) by (unfold obj_has; rewrite G; reflexivity).
    assert (Hset : forall y, parsed_val y ->
               List.length (fields [(k, y)]) = S (List.length (fields [(k, x)])) ->
               parsed_obj (obj_set k y o)
               /\ List.length (fields (obj_set k y o)) = S (List.length (fields o))).
    { intros y Hy Hlen. unfold obj_set. rewrite Hh.
      destruct (obj_replace_split k y o x G) as (o1 & o2 & H1 & H2).
      split.
      - unfold parsed_obj. rewrite keys_replace. repeat split; try assumption.
        rewrite H2. rewrite H1 in Hv. apply Forall_app in Hv. destruct Hv as [Hv1 Hv2].
        inversion Hv2; subst. apply Forall_app. split; [assumption|].
        constructor; assumption.
      - rewrite H2, H1.
        change ((k, y) :: o2) with ([(k, y)] ++ o2)%list.
        change ((k, x) :: o2) with ([(k, x)] ++ o2)%list.
        rewrite !fields_app, !length_app, Hlen. lia. }
    destruct x as [p|l].
    + destruct p; simpl in Hx; try contradiction.
      apply Hset.
      * simpl. split; [lia|]. repeat constructor.
      * reflexivity.
    + destruct Hx as [Hl Ht]. apply Hset.
      * simpl. rewrite length_app. simpl. split; [lia|].
        apply Forall_app. split; [exact Ht|]. repeat constructor.
      * simpl. rewrite !List.app_nil_r, !length_map, length_app. simpl. lia.
  - assert (Hh : obj_has k o = false) by (unfold obj_has; rewrite G; reflexivity).
    unfold obj_set. rewrite Hh. split.
    + repeat split.
      * apply nodup_insert; assumption.
      * apply ordered_insert; assumption.
      * destruct (obj_insert_split k (QOne (PStr v)) o) as (o1 & o2 & H1 & H2 & _).
        rewrite H2. subst o. apply Forall_app in Hv. destruct Hv as [Hv1 Hv2].
        apply Forall_app. split; [assumption|]. constructor; [exact I|assumption].
    + destruct (obj_insert_split k (QOne (PStr v)) o) as (o1 & o2 & H1 & H2 & _).
      rewrite H2. subst o.
      change ((k, QOne (PStr v)) :: o2) with ([(k, QOne (PStr v))] ++ o2)%list.
      rewrite !fields_app, !length_app. simpl. lia.
Qed.

Lemma add_piece_parsed o piece :
  parsed_obj o ->
  parsed_obj (add_piece o piece)
  /\ (List.length (fields (add_piece o piece)) <= S (List.length (fields o)))%nat.
Proof.
  intros H. unfold add_piece. destruct (is_empty piece).
  - split; [exact H|lia].
  - destruct (cut "=" piece) as [k v].
    destruct (addKeyValue_parsed o (decode k)
                (decode match v with Some x => x | None => EmptyString end) H) as [H1 H2].
    split; [exact H1|lia].
Qed.

Lemma add_pieces_parsed pieces : forall o,
  parsed_obj o ->
  parsed_obj (fold_left add_piece pieces o)
  /\ (List.length (fields (fold_left add_piece pieces o))
      <= List.length (fields o) + List.length pieces)%nat.
Proof.
  induction pieces as [|piece pieces IH]; simpl; intros o H.
  - split; [exact H|lia].
  - destruct (add_piece_parsed o piece H) as [H1 H2].
    destruct (IH _ H1) as [H3 H4]. split; [exact H3|lia].
Qed.

Lemma parsed_empty : parsed_obj [].
Proof. repeat split; constructor. Qed.

(** What [parse] returns is a parsed object of at most [maxKeys] fields. *)
Lemma parse_parsed qs :
  parsed_obj (parse qs) /\ (List.length (fields (parse qs)) <= maxKeys)%nat.
Proof.
  destruct qs as [s|]; unfold parse.
  - destruct (add_pieces_parsed (firstn maxKeys (split "&" s)) [] parsed_empty)
      as [H1 H2].
    split; [exact H1|].
    change (List.length (fields [])) with 0%nat in H2.
    pose proof (firstn_le_length maxKeys (split "&" s)). lia.
  - split; [exact parsed_empty|]. apply Nat.le_0_l.
Qed.

End ParseFacts.

Module RereadFacts.
Import Str StrFacts QsFacts ParseFacts.




Lemma keys_reread (o : QObj) : obj_keys (List.map reread o) = obj_keys o.
Proof. unfold obj_keys. rewrite map_map. reflexivity. Qed.



End RereadFacts.

(* ================================================================== *)
(** ** Facts about [updateUrl] *)

Module MergeFacts.
Import Str StrFacts QsFacts ParseFacts RereadFacts.

Lemma set_default_plain k p (qs : QObj) :
  array_index k = None ->
  set_default k p qs = if obj_has k qs then qs else (qs ++ [(k, QOne p)])%list.
Proof.
  intros Hk. unfold set_default. destruct (obj_has k qs) eqn:E; [reflexivity|].
  apply obj_set_new_plain; assumption.
Qed.

Ltac three_keys P :=
  destruct (obj_has "offset" P) eqn:?H, (obj_has "total" P) eqn:?H,
           (obj_has "limit" P) eqn:?H.

(** The three conditional assignments of [updateUrl] append the missing
    defaults, in the order offset, total, limit. *)
Lemma set_defaults_added offset (qs : QObj) :
  set_default "limit" (PNum 100)
    (set_default "total" (PBool true) (set_default "offset" offset qs))
  = (qs ++ added offset qs)%list.
Proof.
  rewrite !set_default_plain by reflexivity. unfold added, defaults.
  cbn [filter fst]. three_keys qs;
    repeat (rewrite ?obj_has_app, ?H, ?H0, ?H1; simpl);
    rewrite <- ?List.app_assoc, ?List.app_nil_r; reflexivity.
Qed.





Lemma fields_lack c (o : QObj) :
  plain_char c = false -> Ascii.eqb "=" c = false ->
  Forall (fun x => lacks c x = true) (fields o).
Proof.
  intros Hc He. unfold fields. apply Forall_flat_map. apply Forall_forall.
  intros [k v] _. simpl. destruct v as [p|l].
  - constructor; [|constructor]. apply field_lacks; assumption.
  - apply Forall_map. apply Forall_forall. intros a _. apply field_lacks; assumption.
Qed.

Lemma added_fields_nonempty offset (qs : QObj) :
  parsed_obj qs -> fields (qs ++ added offset qs)%list <> [].
Proof.
  intros (_ & _ & Hv). rewrite fields_app.
  destruct qs as [|[k v] qs].
  - unfold added, defaults. simpl. discriminate.
  - rewrite fields_cons. inversion Hv as [|? ? Hkv _]; subst. simpl in Hkv.
    destruct v as [p|l].
    + discriminate.
    + destruct Hkv as [Hl _]. destruct l as [|a l]; [simpl in Hl; lia|discriminate].
Qed.



End MergeFacts.

Module UrlFacts.
Import Str StrFacts QsFacts ParseFacts RereadFacts MergeFacts.

(** What [url.parse] returns: a base without [?] and [#], and a fragment
    that is empty or starts with [#]. *)
Lemma parse_parts address :
  lacks "?" (Url.base (Url.parse address)) = true
  /\ lacks "#" (Url.base (Url.parse address)) = true
  /\ (Url.hash (Url.parse address) = EmptyString
      \/ exists x, Url.hash (Url.parse address) = String "#" x).
Proof.
  unfold Url.parse.
  pose proof (cut_fst_lacks "#" address) as H1.
  destruct (cut "#" address) as [rest h]. simpl in H1.
  pose proof (cut_fst_lacks "?" rest) as H2.
  pose proof (cut_fst_all (fun a => negb (Ascii.eqb a "#")) "?" rest H1) as H3.
  destruct (cut "?" rest) as [b q]. simpl in *.
  repeat split; try assumption.
  destruct h; [right; eexists; reflexivity|left; reflexivity].
Qed.

(** Parsing an address put together from a base, a query and a
    fragment. *)
Lemma parse_rebuilt b s h :
  lacks "?" b = true -> lacks "#" b = true -> lacks "#" s = true ->
  (h = EmptyString \/ exists x, h = String "#" x) ->
  Url.parse (b ++ String "?" s ++ h)
  = Url.mk b (Some (String "?" s)) (Some s) h.
Proof.
  intros Hb1 Hb2 Hs Hh. unfold Url.parse.
  assert (Hpre : lacks "#" (b ++ String "?" s) = true).
  { rewrite lacks_app, Hb2. simpl. exact Hs. }
  assert (Hcut : cut "?" (b ++ String "?" s) = (b, Some s))
    by (apply cut_at; exact Hb1).
  destruct Hh as [->|[x ->]].
  - change (String "?" s ++ "") with (String "?" (s ++ "")).
    rewrite StrFacts.app_nil_r.
    rewrite (cut_lacks "#" _ Hpre), Hcut. reflexivity.
  - replace (b ++ String "?" s ++ String "#" x)
      with ((b ++ String "?" s) ++ String "#" x)
      by (rewrite StrFacts.app_assoc; reflexivity).
    rewrite (cut_at "#" _ x Hpre), Hcut. reflexivity.
Qed.

(** The address [updateUrl] returns: the base, the printed query, the
    fragment. *)
Lemma updateUrl_shape address offset :
  updateUrl address offset
  = Url.base (Url.parse address)
    ++ String "?" (stringify (parsed_query address ++ added offset (parsed_query address))%list)
    ++ Url.hash (Url.parse address).
Proof.
  unfold updateUrl. rewrite set_defaults_added. reflexivity.
Qed.

Lemma stringify_lacks_hash (o : QObj) : lacks "#" (stringify o) = true.
Proof.
  unfold stringify. apply join_lacks; [reflexivity|].
  apply fields_lack; reflexivity.
Qed.

(** Parsing the address [updateUrl] returns. *)
Lemma parse_updateUrl address offset :
  Url.parse (updateUrl address offset)
  = Url.mk (Url.base (Url.parse address))
           (Some (String "?" (stringify (parsed_query address
                                          ++ added offset (parsed_query address))%list)))
           (Some (stringify (parsed_query address
                               ++ added offset (parsed_query address))%list))
           (Url.hash (Url.parse address)).
Proof.
  rewrite updateUrl_shape.
  destruct (parse_parts address) as (H1 & H2 & H3).
  apply parse_rebuilt; try assumption. apply stringify_lacks_hash.
Qed.



End UrlFacts.

(* ================================================================== *)
(** ** The query merge *)




Module OrderOfKeys.
Import Str StrFacts QsFacts ParseFacts.




End OrderOfKeys.




(* ================================================================== *)
(** * Further properties *)

(** ** More about [updateUrl] *)

Module MoreMergeFacts.
Import Str StrFacts QsFacts ParseFacts RereadFacts MergeFacts UrlFacts.

Lemma field_nonempty k p : is_empty (field k p) = false.
Proof. rewrite field_text. destruct (escape k); reflexivity. Qed.

Lemma field_key k p : decode (fst (cut "=" (field k p))) = k.
Proof.
  rewrite field_text.
  rewrite cut_at by (apply plain_lacks; [reflexivity|apply escape_plain]).
  apply decode_escape.
Qed.

(** The keys written in a printed query are the keys of its fields. *)
Lemma keys_of_fields (o : QObj) : keys_of_pieces (fields o) = field_keys o.
Proof.
  unfold keys_of_pieces. induction o as [|[k v] o IH]; [reflexivity|].
  rewrite fields_cons, filter_app, map_app, IH.
  change (field_keys ((k, v) :: o))
    with ((match v with
           | QOne _ => [k]
           | QMany l => List.map (fun _ => k) l
           end) ++ field_keys o)%list.
  f_equal. unfold fields. simpl. rewrite List.app_nil_r. destruct v as [p|l].
  - simpl. rewrite field_nonempty. simpl. rewrite field_key. reflexivity.
  - induction l as [|a l IHl]; [reflexivity|].
    simpl. rewrite field_nonempty. simpl. rewrite field_key, IHl. reflexivity.
Qed.

Lemma split_stringify offset (qs : QObj) :
  parsed_obj qs ->
  split "&" (stringify (qs ++ added offset qs)%list)
  = fields (qs ++ added offset qs)%list.
Proof.
  intros Hq. unfold stringify. apply split_join.
  - apply added_fields_nonempty. exact Hq.
  - apply fields_lack; reflexivity.
Qed.

Lemma query_of_updateUrl address offset :
  query_of (updateUrl address offset)
  = Some (stringify (parsed_query address ++ added offset (parsed_query address))%list).
Proof. unfold query_of. rewrite parse_updateUrl. reflexivity. Qed.

Lemma field_keys_has (qs : QObj) k :
  Forall (fun kv => parsed_val (snd kv)) qs ->
  obj_has k qs = true -> In k (field_keys qs).
Proof.
  intros Hv Hk. unfold obj_has in Hk.
  destruct (obj_get k qs) as [x|] eqn:G; [|discriminate].
  pose proof (obj_get_In k qs x G) as Hin.
  rewrite Forall_forall in Hv. specialize (Hv _ Hin). simpl in Hv.
  unfold field_keys. apply in_flat_map. exists (k, x). split; [exact Hin|].
  simpl. destruct x as [p|l]; [left; reflexivity|].
  destruct Hv as [Hl _]. destruct l as [|a l]; [simpl in Hl; lia|].
  left. reflexivity.
Qed.

Lemma added_has offset (qs : QObj) k :
  In k ["offset"; "total"; "limit"] ->
  obj_has k qs = false -> In k (field_keys (added offset qs)).
Proof.
  intros Hk Hh. unfold added, defaults. cbn [filter fst].
  simpl in Hk. destruct Hk as [<-|[<-|[<-|[]]]]; rewrite Hh; cbn [negb];
    repeat match goal with
           | |- context [if negb (obj_has ?x qs) then _ else _] =>
               destruct (negb (obj_has x qs))
           end; simpl; tauto.
Qed.

Lemma added_same_offset offset offset' (qs : QObj) :
  obj_has "offset" qs = true -> added offset qs = added offset' qs.
Proof. intros H. unfold added, defaults. cbn [filter fst]. rewrite H. reflexivity. Qed.




Lemma escape_char_query c : all query_char (escape_char c) = true.
Proof. destruct c as [[] [] [] [] [] [] [] []]; reflexivity. Qed.

Lemma escape_query s : all query_char (escape s) = true.
Proof.
  induction s; simpl; [reflexivity|].
  rewrite all_app, escape_char_query, IHs. reflexivity.
Qed.

Lemma join_all P sep (l : list string) :
  all P sep = true ->
  Forall (fun x => all P x = true) l ->
  all P (join sep l) = true.
Proof.
  intros Hs. induction l as [|x l IH]; [reflexivity|].
  intros H. inversion H as [|? ? Hx Hl]; subst.
  destruct l as [|y l]; [exact Hx|].
  change (join sep (x :: y :: l)) with (x ++ sep ++ join sep (y :: l)).
  rewrite !all_app, Hx, Hs. apply IH. exact Hl.
Qed.

Lemma stringify_query_chars (o : QObj) : all query_char (stringify o) = true.
Proof.
  unfold stringify. apply join_all; [reflexivity|].
  unfold fields. apply Forall_flat_map. apply Forall_forall. intros [k v] _. simpl.
  assert (Hf : forall p, all query_char (field k p) = true).
  { intros p. rewrite field_text, all_app, escape_query. simpl. apply escape_query. }
  destruct v as [p|l].
  - constructor; [apply Hf|constructor].
  - apply Forall_map. apply Forall_forall. intros a _. apply Hf.
Qed.

End MoreMergeFacts.

(** X1.  Whatever the address and the offset, the query of the address
    [updateUrl] returns is written with the keys [offset], [total] and
    [limit]. *)
Theorem updateUrl_always_writes_the_three_keys address offset k :
  In k ["offset"; "total"; "limit"] ->
  In k (written_keys (query_of (updateUrl address offset))).
Proof.
  intros Hk. rewrite MoreMergeFacts.query_of_updateUrl. unfold written_keys.
  destruct (ParseFacts.parse_parsed (query_of address)) as [Hq _].
  fold (parsed_query address) in Hq.
  rewrite MoreMergeFacts.split_stringify by exact Hq.
  rewrite MoreMergeFacts.keys_of_fields. unfold field_keys.
  rewrite flat_map_app. apply in_or_app.
  destruct (obj_has k (parsed_query address)) eqn:E.
  - left. apply MoreMergeFacts.field_keys_has; [apply Hq|exact E].
  - right. apply MoreMergeFacts.added_has; assumption.
Qed.

Lemma updateUrl_always_writes_the_three_keys_witness :
  In "total" ["offset"; "total"; "limit"]
  /\ In "total" (written_keys (query_of (updateUrl "http://h/p?x=1#top" (PNum 7)))).
Proof.
  assert (H : In "total" ["offset"; "total"; "limit"]) by (right; left; reflexivity).
  split; [exact H|].
  exact (updateUrl_always_writes_the_three_keys "http://h/p?x=1#top" (PNum 7) "total" H).
Defined.

(** X2.  When the parsed query of the address already has [offset], the
    offset argument plays no part: any two offsets give the same
    address. *)
Theorem updateUrl_ignores_offset_when_given address offset offset' :
  obj_has "offset" (parsed_query address) = true ->
  updateUrl address offset = updateUrl address offset'.
Proof.
  intros H. rewrite !UrlFacts.updateUrl_shape.
  rewrite (MoreMergeFacts.added_same_offset offset offset' _ H). reflexivity.
Qed.

Lemma updateUrl_ignores_offset_when_given_witness :
  obj_has "offset" (parsed_query "http://h/users?offset=5") = true
  /\ updateUrl "http://h/users?offset=5" (PNum 0)
     = updateUrl "http://h/users?offset=5" (PNum 100).
Proof.
  split; [reflexivity|].
  exact (updateUrl_ignores_offset_when_given "http://h/users?offset=5"
           (PNum 0) (PNum 100) eq_refl).
Defined.



(** X4.  The query of the address [updateUrl] returns is made of unescaped
    characters (letters, digits, [! ' ( ) * - . _ ~]), [%], [=] and [&]
    only, whatever the query of the input held. *)
Theorem updateUrl_query_is_well_formed address offset :
  exists q, query_of (updateUrl address offset) = Some q
            /\ Str.all query_char q = true.
Proof.
  eexists. split; [apply MoreMergeFacts.query_of_updateUrl|].
  apply MoreMergeFacts.stringify_query_chars.
Qed.


(* ================================================================== *)
(** ** More about the page loop *)

Module LoopFacts.

Lemma updateUrl_given_offset address offset offset' :
  obj_has "offset" (parsed_query address) = true ->
  updateUrl address offset = updateUrl address offset'.
Proof.
  intros H. rewrite !UrlFacts.updateUrl_shape.
  rewrite (MoreMergeFacts.added_same_offset offset offset' _ H). reflexivity.
Qed.

(** What [accumulate] returns, when it returns. *)
Lemma accumulate_spec options results body r :
  accumulate options results body = Some r ->
  r = (results ++ extracted (key options) body)%list.
Proof.
  unfold accumulate, extracted. destruct (text_truthy (key options)).
  - destruct (js_get body (tpl (key options))) as [x|]; [|discriminate].
    intros [= <-]. destruct x as [p|l|o]; reflexivity.
  - intros [= <-]. destruct body as [p|l|o]; reflexivity.
Qed.


(** A successful run of the axios-based loop, read backwards. *)
Lemma axios_query_success this options script : forall offset results r,
  completion (AxiosClient.query this options offset results script) = Succeeded r ->
  exists bodies last rest,
    script = (List.map (Response 200) (bodies ++ [last]) ++ rest)%list
    /\ Forall more_truthy bodies
    /\ more_falsy last
    /\ r = (results ++ flat_map (extracted (key options)) (bodies ++ [last]))%list
    /\ List.length (requests (AxiosClient.query this options offset results script))
       = S (List.length bodies).
Proof.
  induction script as [|[err|status body] script IH]; intros offset results r; simpl.
  - discriminate.
  - discriminate.
  - destruct (AxiosClient.resolves status); [|discriminate].
    destruct (status =? 200)%Z eqn:Es; [|discriminate]. apply Z.eqb_eq in Es. subst status.
    simpl. destruct (accumulate options results body) as [results'|] eqn:Ea; [|discriminate].
    apply accumulate_spec in Ea.
    destruct (js_get body "more") as [more|] eqn:Em; [|discriminate].
    destruct (truthy more) eqn:Et.
    + destruct (js_get body "limit") as [limit|]; [|discriminate].
      simpl. intros H. destruct (IH _ _ _ H) as (bodies & last & rest & H1 & H2 & H3 & H4 & H5).
      exists (body :: bodies), last, rest. subst script results'. simpl.
      repeat split.
      * constructor; [exists more; auto|exact H2].
      * exact H3.
      * rewrite H4, <- List.app_assoc. reflexivity.
      * rewrite H5. reflexivity.
    + simpl. intros [= <-]. exists [], body, script. simpl.
      repeat split; [constructor|exists more; auto|].
      rewrite Ea, List.app_nil_r. reflexivity.
Qed.

(** A successful run of the request-based loop, read backwards. *)
Lemma request_query_success this options script : forall offset results r,
  completion (RequestClient.query this options offset results script) = Succeeded r ->
  exists bodies last rest,
    script = (List.map (Response 200) (bodies ++ [last]) ++ rest)%list
    /\ Forall more_truthy bodies
    /\ more_falsy last
    /\ r = (results ++ flat_map (extracted (key options)) (bodies ++ [last]))%list
    /\ List.length (requests (RequestClient.query this options offset results script))
       = S (List.length bodies).
Proof.
  induction script as [|[err|status body] script IH]; intros offset results r; simpl.
  - discriminate.
  - discriminate.
  - destruct (status =? 200)%Z eqn:Es.
    2:{ simpl. unfold RequestClient.status_error.
        destruct (RequestClient.error_detail body); discriminate. }
    apply Z.eqb_eq in Es. subst status.
    simpl. destruct (accumulate options results body) as [results'|] eqn:Ea; [|discriminate].
    apply accumulate_spec in Ea.
    destruct (js_get body "more") as [more|] eqn:Em; [|discriminate].
    destruct (truthy more) eqn:Et.
    + destruct (js_get body "limit") as [limit|]; [|discriminate].
      simpl. intros H. destruct (IH _ _ _ H) as (bodies & last & rest & H1 & H2 & H3 & H4 & H5).
      exists (body :: bodies), last, rest. subst script results'. simpl.
      repeat split.
      * constructor; [exists more; auto|exact H2].
      * exact H3.
      * rewrite H4, <- List.app_assoc. reflexivity.
      * rewrite H5. reflexivity.
    + simpl. intros [= <-]. exists [], body, script. simpl.
      repeat split; [constructor|exists more; auto|].
      rewrite Ea, List.app_nil_r. reflexivity.
Qed.

(** While pages report [more: true], one more request goes out. *)
Lemma axios_query_goes_on this options bodies : forall offset results,
  Forall more_page bodies ->
  let r := AxiosClient.query this options (PNum offset) results
             (List.map (Response 200) bodies) in
  completion r = Pending /\ List.length (requests r) = S (List.length bodies).
Proof.
  induction bodies as [|body bodies IH]; intros offset results Hb; simpl.
  - auto.
  - inversion Hb as [|? ? Hbody Hb']; subst.
    destruct (more_page_steps options results body Hbody) as (Ha & Hm & Hl).
    rewrite Ha, Hm, Hl. simpl. rewrite js_add_num.
    destruct (IH (offset + page_limit body)%Z
                 (results ++ extracted (key options) body)%list Hb') as [H1 H2].
    rewrite H1, H2. auto.
Qed.

Lemma request_query_goes_on this options bodies : forall offset results,
  Forall more_page bodies ->
  let r := RequestClient.query this options (PNum offset) results
             (List.map (Response 200) bodies) in
  completion r = Pending /\ List.length (requests r) = S (List.length bodies).
Proof.
  induction bodies as [|body bodies IH]; intros offset results Hb; simpl.
  - auto.
  - inversion Hb as [|? ? Hbody Hb']; subst.
    destruct (more_page_steps options results body Hbody) as (Ha & Hm & Hl).
    rewrite Ha, Hm, Hl. simpl. rewrite js_add_num.
    destruct (IH (offset + page_limit body)%Z
                 (results ++ extracted (key options) body)%list Hb') as [H1 H2].
    rewrite H1, H2. auto.
Qed.



(** The loop does not look at an empty key. *)
Lemma axios_query_empty_key this options script : forall offset results,
  AxiosClient.query this (with_key options (Some EmptyString)) offset results script
  = AxiosClient.query this (with_key options None) offset results script.
Proof.
  induction script as [|[err|status body] script IH]; intros offset results; simpl;
    try reflexivity.
  destruct (AxiosClient.resolves status); [|reflexivity].
  destruct (negb (status =? 200)%Z); [reflexivity|].
  destruct (js_get body "more") as [more|]; [|reflexivity].
  destruct (truthy more); [|reflexivity].
  destruct (js_get body "limit"); [|reflexivity].
  rewrite IH. reflexivity.
Qed.

Lemma request_query_empty_key this options script : forall offset results,
  RequestClient.query this (with_key options (Some EmptyString)) offset results script
  = RequestClient.query this (with_key options None) offset results script.
Proof.
  induction script as [|[err|status body] script IH]; intros offset results; simpl;
    try reflexivity.
  destruct (negb (status =? 200)%Z); [reflexivity|].
  destruct (js_get body "more") as [more|]; [|reflexivity].
  destruct (truthy more); [|reflexivity].
  destruct (js_get body "limit"); [|reflexivity].
  rewrite IH. reflexivity.
Qed.

End LoopFacts.

(** X6.  When the path of a GET call already carries [offset], every
    request of the call goes to the same address, the one of the first
    request, however many pages are fetched and whatever they report: the
    cursor never reaches the wire.  Both clients. *)
Theorem get_with_given_offset_repeats_its_request this options script :
  obj_has "offset" (parsed_query (baseUrl this ++ tpl (path options))) = true ->
  let address := baseUrl this ++ tpl (path options) in
  Forall (fun req => url req = updateUrl address (PNum 0))
         (requests (AxiosClient.get this options script))
  /\ Forall (fun req => url req = updateUrl address (PNum 0))
            (requests (RequestClient.get this options script)).
Proof.
  intros Hoff address.
  assert (Hall : forall cs : list Prim,
             Forall (fun u => u = updateUrl address (PNum 0))
                    (List.map (updateUrl address) cs)).
  { intros cs. apply Forall_map. apply Forall_forall. intros c _.
    apply LoopFacts.updateUrl_given_offset. exact Hoff. }
  assert (Hurl : forall reqs : list Request,
             Forall (fun u => u = updateUrl address (PNum 0)) (List.map url reqs) ->
             Forall (fun req => url req = updateUrl address (PNum 0)) reqs).
  { intros reqs H. apply Forall_map in H. exact H. }
  split.
  - unfold AxiosClient.get.
    destruct (negb (text_truthy (path options))); [constructor|].
    destruct (negb (text_truthy (token options)) && negb (text_truthy (this_token this)));
      [constructor|].
    cbv zeta. apply Hurl. rewrite axios_query_urls, path_defaults. apply Hall.
  - unfold RequestClient.get.
    destruct (negb (text_truthy (path options))); [constructor|].
    destruct (negb (text_truthy (token options)) && negb (text_truthy (this_token this)));
      [constructor|].
    cbv zeta. apply Hurl. rewrite request_query_urls, path_default_token. apply Hall.
Qed.

Lemma get_with_given_offset_repeats_its_request_witness :
  obj_has "offset" (parsed_query (baseUrl demo_client ++ tpl (path demo_offset_options)))
  = true
  /\ let address := baseUrl demo_client ++ tpl (path demo_offset_options) in
     let script := [Response 200 demo_page1; Response 200 demo_page2] in
     Forall (fun req => url req = updateUrl address (PNum 0))
            (requests (AxiosClient.get demo_client demo_offset_options script))
     /\ Forall (fun req => url req = updateUrl address (PNum 0))
               (requests (RequestClient.get demo_client demo_offset_options script)).
Proof.
  split; [reflexivity|].
  exact (get_with_given_offset_repeats_its_request demo_client demo_offset_options
           [Response 200 demo_page1; Response 200 demo_page2] eq_refl).
Defined.

(** X7.  A GET call that calls back with a result has read a run of 200
    responses: pages whose [more] is truthy, then one whose [more] is
    falsy.  It sent one request per page of that run and none after it,
    and its result is the concatenation, in page order, of what those
    pages contribute.  Both clients, any script. *)
Theorem get_success_is_a_complete_run this options script r :
  (completion (AxiosClient.get this options script) = Succeeded r ->
   exists bodies last rest,
     script = (List.map (Response 200) (bodies ++ [last]) ++ rest)%list
     /\ Forall more_truthy bodies /\ more_falsy last
     /\ r = flat_map (extracted (key options)) (bodies ++ [last])
     /\ List.length (requests (AxiosClient.get this options script))
        = S (List.length bodies))
  /\ (completion (RequestClient.get this options script) = Succeeded r ->
      exists bodies last rest,
        script = (List.map (Response 200) (bodies ++ [last]) ++ rest)%list
        /\ Forall more_truthy bodies /\ more_falsy last
        /\ r = flat_map (extracted (key options)) (bodies ++ [last])
        /\ List.length (requests (RequestClient.get this options script))
           = S (List.length bodies)).
Proof.
  split.
  - unfold AxiosClient.get.
    destruct (negb (text_truthy (path options))); [discriminate|].
    destruct (negb (text_truthy (token options)) && negb (text_truthy (this_token this)));
      [discriminate|].
    cbv zeta. intros H.
    destruct (LoopFacts.axios_query_success _ _ _ _ _ _ H)
      as (bodies & last & rest & H1 & H2 & H3 & H4 & H5).
    rewrite key_defaults in H4. exists bodies, last, rest. auto.
  - unfold RequestClient.get.
    destruct (negb (text_truthy (path options))); [discriminate|].
    destruct (negb (text_truthy (token options)) && negb (text_truthy (this_token this)));
      [discriminate|].
    cbv zeta. intros H.
    destruct (LoopFacts.request_query_success _ _ _ _ _ _ H)
      as (bodies & last & rest & H1 & H2 & H3 & H4 & H5).
    rewrite key_default_token in H4. exists bodies, last, rest. auto.
Qed.

Lemma get_success_is_a_complete_run_witness :
  let script := [Response 200 demo_page1; Response 200 demo_page2;
                 Response 404 not_found_body] in
  let r := (extracted (key demo_options) demo_page1
            ++ extracted (key demo_options) demo_page2)%list in
  completion (AxiosClient.get demo_client demo_options script) = Succeeded r
  /\ exists bodies last rest,
       script = (List.map (Response 200) (bodies ++ [last]) ++ rest)%list
       /\ Forall more_truthy bodies /\ more_falsy last
       /\ r = flat_map (extracted (key demo_options)) (bodies ++ [last])
       /\ List.length (requests (AxiosClient.get demo_client demo_options script))
          = S (List.length bodies).
Proof.
  assert (H : completion (AxiosClient.get demo_client demo_options
                            [Response 200 demo_page1; Response 200 demo_page2;
                             Response 404 not_found_body])
              = Succeeded (extracted (key demo_options) demo_page1
                           ++ extracted (key demo_options) demo_page2)%list)
    by reflexivity.
  split; [exact H|].
  exact (proj1 (get_success_is_a_complete_run demo_client demo_options _ _) H).
Defined.

(** X8.  The loop has no cap: after N pages that all report [more: true]
    with an integer [limit], a GET call has sent N + 1 requests and has not
    called back.  Both clients, every N. *)
Theorem get_goes_on_while_more this options bodies :
  checks_pass this options ->
  Forall more_page bodies ->
  let script := List.map (Response 200) bodies in
  (List.length (requests (AxiosClient.get this options script)) = S (List.length bodies)
   /\ completion (AxiosClient.get this options script) = Pending)
  /\ (List.length (requests (RequestClient.get this options script)) = S (List.length bodies)
      /\ completion (RequestClient.get this options script) = Pending).
Proof.
  intros Hc Hb script. subst script.
  rewrite axios_get_query, request_get_query by exact Hc.
  destruct (LoopFacts.axios_query_goes_on this
              (default_timeout this (default_token this options)) bodies 0 [] Hb) as [A1 A2].
  destruct (LoopFacts.request_query_goes_on this (default_token this options)
              bodies 0 [] Hb) as [R1 R2].
  auto.
Qed.

Lemma get_goes_on_while_more_witness :
  checks_pass demo_client demo_options
  /\ Forall more_page [demo_page1; demo_page1; stuck_page]
  /\ let script := List.map (Response 200) [demo_page1; demo_page1; stuck_page] in
     (List.length (requests (AxiosClient.get demo_client demo_options script)) = 4%nat
      /\ completion (AxiosClient.get demo_client demo_options script) = Pending)
     /\ (List.length (requests (RequestClient.get demo_client demo_options script)) = 4%nat
         /\ completion (RequestClient.get demo_client demo_options script) = Pending).
Proof.
  assert (H1 : checks_pass demo_client demo_options) by (split; reflexivity).
  assert (Hp : more_page demo_page1).
  { exists [("users", JArr [JObj [("id", JStr "PA")]; JObj [("id", JStr "PB")]]);
            ("limit", JNum 2); ("offset", JNum 0); ("more", JBool true)], 2%Z.
    repeat split. }
  assert (Hs : more_page stuck_page).
  { exists [("users", JArr []); ("limit", JNum 0); ("more", JBool true)], 0%Z.
    repeat split. }
  assert (H2 : Forall more_page [demo_page1; demo_page1; stuck_page])
    by (repeat constructor; assumption).
  split; [exact H1|]. split; [exact H2|].
  exact (get_goes_on_while_more demo_client demo_options
           [demo_page1; demo_page1; stuck_page] H1 H2).
Defined.



(** X10.  A 200 response whose body is [null] (or missing) stops a GET
    call after that one request without any result: reading a property of
    the body raises, which the axios-based client turns into a callback
    with the [TypeError], and which in the request-based client nothing
    catches, so that the callback is never called. *)
Theorem get_null_body_raises this options body rest :
  checks_pass this options ->
  body = JNull \/ body = JUndef ->
  let script := Response 200 body :: rest in
  (completion (AxiosClient.get this options script) = Failed TypeErrorObject
   /\ List.length (requests (AxiosClient.get this options script)) = 1%nat)
  /\ (completion (RequestClient.get this options script) = Uncaught
      /\ List.length (requests (RequestClient.get this options script)) = 1%nat).
Proof.
  intros Hc Hb script. subst script.
  rewrite axios_get_query, request_get_query by exact Hc.
  destruct Hb as [-> | ->]; simpl; unfold accumulate;
    destruct (text_truthy (key (default_timeout this (default_token this options))));
    destruct (text_truthy (key (default_token this options)));
    simpl; auto.
Qed.

Lemma get_null_body_raises_witness :
  checks_pass demo_client demo_options
  /\ (JNull = JNull \/ JNull = JUndef)
  /\ let script := [Response 200 JNull; Response 200 demo_page2] in
     (completion (AxiosClient.get demo_client demo_options script) = Failed TypeErrorObject
      /\ List.length (requests (AxiosClient.get demo_client demo_options script)) = 1%nat)
     /\ (completion (RequestClient.get demo_client demo_options script) = Uncaught
         /\ List.length (requests (RequestClient.get demo_client demo_options script))
            = 1%nat).
Proof.
  assert (H1 : checks_pass demo_client demo_options) by (split; reflexivity).
  assert (H2 : JNull = JNull \/ JNull = JUndef) by (left; reflexivity).
  split; [exact H1|]. split; [exact H2|].
  exact (get_null_body_raises demo_client demo_options JNull [Response 200 demo_page2]
           H1 H2).
Defined.



(** X12.  An empty key is no key: a GET call whose [key] is the empty
    string does, request for request and to the last element of its
    result, what the same call without a key does.  Both clients, any
    script. *)
Theorem get_empty_key_is_no_key this options script :
  AxiosClient.get this (with_key options (Some EmptyString)) script
  = AxiosClient.get this (with_key options None) script
  /\ RequestClient.get this (with_key options (Some EmptyString)) script
     = RequestClient.get this (with_key options None) script.
Proof.
  assert (Hd : forall k, default_token this (with_key options k)
                         = with_key (default_token this options) k).
  { intros k. unfold default_token, with_key. simpl.
    destruct (negb (text_truthy (token options))); reflexivity. }
  assert (Ht : forall k, default_timeout this (with_key (default_token this options) k)
                         = with_key (default_timeout this (default_token this options)) k).
  { intros k. unfold default_timeout. cbn [timeout with_key].
    destruct (timeout (default_token this options)) eqn:E; unfold with_key; simpl;
      rewrite ?E; reflexivity. }
  split.
  - unfold AxiosClient.get. cbn [path token with_key].
    destruct (negb (text_truthy (path options))); [reflexivity|].
    destruct (negb (text_truthy (token options)) && negb (text_truthy (this_token this)));
      [reflexivity|].
    cbv zeta. rewrite !Hd, !Ht. apply LoopFacts.axios_query_empty_key.
  - unfold RequestClient.get. cbn [path token with_key].
    destruct (negb (text_truthy (path options))); [reflexivity|].
    destruct (negb (text_truthy (token options)) && negb (text_truthy (this_token this)));
      [reflexivity|].
    cbv zeta. rewrite !Hd. apply LoopFacts.request_query_empty_key.
Qed.



(* ================================================================== *)
(** ** More about the four operations *)

Module VerbFacts.

Lemma axios_query_timeouts this options script : forall offset results,
  Forall (fun req => req_timeout req = timeout options)
         (requests (AxiosClient.query this options offset results script)).
Proof.
  induction script as [|[err|status body] script IH]; intros offset results; simpl.
  - repeat constructor.
  - repeat constructor.
  - destruct (AxiosClient.resolves status); [|repeat constructor].
    destruct (negb (status =? 200)%Z); [repeat constructor|].
    destruct (accumulate options results body); [|repeat constructor].
    destruct (js_get body "more") as [more|]; [|repeat constructor].
    destruct (truthy more); [|repeat constructor].
    destruct (js_get body "limit") as [limit|]; [|repeat constructor].
    simpl. constructor; [reflexivity|apply IH].
Qed.

Lemma request_query_timeouts this options script : forall offset results,
  Forall (fun req => req_timeout req = None)
         (requests (RequestClient.query this options offset results script)).
Proof.
  induction script as [|[err|status body] script IH]; intros offset results; simpl.
  - repeat constructor.
  - repeat constructor.
  - destruct (negb (status =? 200)%Z); [repeat constructor|].
    destruct (accumulate options results body); [|repeat constructor].
    destruct (js_get body "more") as [more|]; [|repeat constructor].
    destruct (truthy more); [|repeat constructor].
    destruct (js_get body "limit") as [limit|]; [|repeat constructor].
    simpl. constructor; [reflexivity|apply IH].
Qed.

Lemma timeout_defaults this options :
  timeout (default_timeout this (default_token this options))
  = Some (resolved_timeout this options).
Proof.
  unfold default_timeout, resolved_timeout, default_token.
  destruct (negb (text_truthy (token options))); simpl;
    destruct (timeout options) eqn:E; simpl; rewrite ?E; reflexivity.
Qed.

Lemma unshaped_detail body : unshaped_body body -> RequestClient.error_detail body = None.
Proof.
  intros [[s ->]|[o [-> H]]]; unfold RequestClient.error_detail.
  - reflexivity.
  - simpl. unfold obj_has in H. destruct (obj_get "error" o); [discriminate|reflexivity].
Qed.

End VerbFacts.

(** X14.  Timeouts of the axios-based client: every request of every
    operation runs with the call's own [timeout] when the options have one
    (a [timeout] of 0 included) and with the client's otherwise, which is
    10000 when the constructor was given none.  The request-based client
    sets no timeout on any request. *)
Theorem timeout_resolution this options :
  ((forall script, Forall (fun req => req_timeout req = Some (resolved_timeout this options))
                          (requests (AxiosClient.get this options script)))
   /\ (forall answer, Forall (fun req => req_timeout req = Some (resolved_timeout this options))
                             (requests (AxiosClient.post this options answer)))
   /\ (forall answer, Forall (fun req => req_timeout req = Some (resolved_timeout this options))
                             (requests (AxiosClient.put this options answer)))
   /\ (forall answer, Forall (fun req => req_timeout req = Some (resolved_timeout this options))
                             (requests (AxiosClient.delete this options answer))))
  /\ ((forall script, Forall (fun req => req_timeout req = None)
                             (requests (RequestClient.get this options script)))
      /\ (forall answer, Forall (fun req => req_timeout req = None)
                                (requests (RequestClient.post this options answer)))
      /\ (forall answer, Forall (fun req => req_timeout req = None)
                                (requests (RequestClient.put this options answer)))
      /\ (forall answer, Forall (fun req => req_timeout req = None)
                                (requests (RequestClient.delete this options answer))))
  /\ (forall t, timeout options = Some t -> resolved_timeout this options = t)
  /\ (timeout options = None -> resolved_timeout this options = this_timeout this)
  /\ (forall TEST tok,
        this_timeout (AxiosClient.constructor TEST tok None) = 10000%Z
        /\ forall t, this_timeout (AxiosClient.constructor TEST tok (Some t)) = t).
Proof.
  pose proof (VerbFacts.timeout_defaults this options) as Ht.
  split; [|split; [|split; [|split]]].
  - repeat match goal with |- (forall _, _) /\ _ => split end; intros s.
    + unfold AxiosClient.get.
      destruct (negb (text_truthy (path options))); [constructor|].
      destruct (negb (text_truthy (token options)) && negb (text_truthy (this_token this)));
        [constructor|].
      cbv zeta. eapply Forall_impl; [|apply VerbFacts.axios_query_timeouts].
      intros req Hreq. simpl in Hreq. rewrite Hreq. exact Ht.
    + unfold AxiosClient.post.
      destruct (negb (text_truthy (path options))); [constructor|].
      destruct (negb (value_truthy (body options))); [constructor|].
      destruct (negb (text_truthy (token options)) && negb (text_truthy (this_token this)));
        [constructor|].
      cbv zeta. rewrite axios_dispatch_requests. constructor; [exact Ht|constructor].
    + unfold AxiosClient.put.
      destruct (negb (text_truthy (path options))); [constructor|].
      destruct (negb (value_truthy (body options))); [constructor|].
      destruct (negb (text_truthy (token options)) && negb (text_truthy (this_token this)));
        [constructor|].
      cbv zeta. rewrite axios_dispatch_requests. constructor; [exact Ht|constructor].
    + unfold AxiosClient.delete.
      destruct (negb (text_truthy (path options))); [constructor|].
      destruct (negb (text_truthy (token options)) && negb (text_truthy (this_token this)));
        [constructor|].
      cbv zeta. rewrite axios_dispatch_requests. constructor; [exact Ht|constructor].
  - repeat match goal with |- (forall _, _) /\ _ => split end; intros s.
    + unfold RequestClient.get.
      destruct (negb (text_truthy (path options))); [constructor|].
      destruct (negb (text_truthy (token options)) && negb (text_truthy (this_token this)));
        [constructor|].
      cbv zeta. apply VerbFacts.request_query_timeouts.
    + unfold RequestClient.post.
      destruct (negb (text_truthy (path options))); [constructor|].
      destruct (negb (value_truthy (body options))); [constructor|].
      destruct (negb (text_truthy (token options)) && negb (text_truthy (this_token this)));
        [constructor|].
      cbv zeta. rewrite request_dispatch_requests. constructor; [reflexivity|constructor].
    + unfold RequestClient.put.
      destruct (negb (text_truthy (path options))); [constructor|].
      destruct (negb (value_truthy (body options))); [constructor|].
      destruct (negb (text_truthy (token options)) && negb (text_truthy (this_token this)));
        [constructor|].
      cbv zeta. rewrite request_dispatch_requests. constructor; [reflexivity|constructor].
    + unfold RequestClient.delete.
      destruct (negb (text_truthy (path options))); [constructor|].
      destruct (negb (text_truthy (token options)) && negb (text_truthy (this_token this)));
        [constructor|].
      cbv zeta. rewrite request_dispatch_requests. constructor; [reflexivity|constructor].
  - intros t H. unfold resolved_timeout. rewrite H. reflexivity.
  - intros H. unfold resolved_timeout. rewrite H. reflexivity.
  - intros TEST tok. split; [reflexivity|]. intros t. reflexivity.
Qed.

Lemma timeout_resolution_witness :
  timeout demo_timeout_options = Some 0%Z
  /\ resolved_timeout demo_client demo_timeout_options = 0%Z
  /\ Forall (fun req => req_timeout req = Some 0%Z)
            (requests (AxiosClient.get demo_client demo_timeout_options
                         [Response 200 demo_single]))
  /\ resolved_timeout demo_client demo_options = 10000%Z.
Proof.
  pose proof (timeout_resolution demo_client demo_timeout_options)
    as ((Hget & _) & _ & Hcall & _).
  pose proof (timeout_resolution demo_client demo_options) as (_ & _ & _ & Hdef & _).
  split; [reflexivity|]. split; [exact (Hcall 0%Z eq_refl)|].
  split; [exact (Hget [Response 200 demo_single])|].
  exact (Hdef eq_refl).
Defined.

(** X15.  [post], [put] and [delete] make one round trip and do not touch
    the address: once the checks pass, exactly one request goes out, with
    the operation's method, to the base address followed by the path as
    given (no [offset], [total] or [limit] is added), carrying the body as
    given.  Whatever the options, no such call sends a second request.
    Both clients. *)
Theorem writes_send_one_plain_request this options p :
  path options = Some p ->
  (send_checks_pass this options ->
   forall answer,
     (exists req, requests (AxiosClient.post this options answer) = [req]
                  /\ method req = POST /\ url req = baseUrl this ++ p
                  /\ data req = body options)
     /\ (exists req, requests (AxiosClient.put this options answer) = [req]
                     /\ method req = PUT /\ url req = baseUrl this ++ p
                     /\ data req = body options)
     /\ (exists req, requests (RequestClient.post this options answer) = [req]
                     /\ method req = POST /\ url req = baseUrl this ++ p
                     /\ json req = body options)
     /\ (exists req, requests (RequestClient.put this options answer) = [req]
                     /\ method req = PUT /\ url req = baseUrl this ++ p
                     /\ json req = body options))
  /\ (checks_pass this options ->
      forall answer,
        (exists req, requests (AxiosClient.delete this options answer) = [req]
                     /\ method req = DELETE /\ url req = baseUrl this ++ p
                     /\ data req = None)
        /\ (exists req, requests (RequestClient.delete this options answer) = [req]
                        /\ method req = DELETE /\ url req = baseUrl this ++ p
                        /\ json req = None))
  /\ (forall answer,
        (List.length (requests (AxiosClient.post this options answer)) <= 1)%nat
        /\ (List.length (requests (AxiosClient.put this options answer)) <= 1)%nat
        /\ (List.length (requests (AxiosClient.delete this options answer)) <= 1)%nat
        /\ (List.length (requests (RequestClient.post this options answer)) <= 1)%nat
        /\ (List.length (requests (RequestClient.put this options answer)) <= 1)%nat
        /\ (List.length (requests (RequestClient.delete this options answer)) <= 1)%nat).
Proof.
  intros Hpath.
  assert (Hp : tpl (path (default_token this options)) = p)
    by (rewrite path_default_token, Hpath; reflexivity).
  assert (Hp' : tpl (path (default_timeout this (default_token this options))) = p)
    by (rewrite path_defaults, Hpath; reflexivity).
  assert (Hb : body (default_token this options) = body options).
  { unfold default_token. destruct (negb (text_truthy (token options))); reflexivity. }
  pose proof (body_defaults this options) as Hb'.
  split; [|split].
  - intros (H1 & H2 & H3) answer.
    unfold AxiosClient.post, AxiosClient.put, RequestClient.post, RequestClient.put.
    rewrite H1, H2. cbn [negb]. rewrite <- negb_orb, H3. cbn [negb]. cbv zeta.
    rewrite !axios_dispatch_requests, !request_dispatch_requests.
    repeat split; eexists; (split; [reflexivity|]); cbn [method url data json];
      rewrite ?Hp, ?Hp', ?Hb, ?Hb'; auto.
  - intros (H1 & H3) answer.
    unfold AxiosClient.delete, RequestClient.delete.
    rewrite H1. cbn [negb]. rewrite <- negb_orb, H3. cbn [negb]. cbv zeta.
    rewrite !axios_dispatch_requests, !request_dispatch_requests.
    repeat split; eexists; (split; [reflexivity|]); cbn [method url data json];
      rewrite ?Hp, ?Hp'; auto.
  - intros answer.
    unfold AxiosClient.post, AxiosClient.put, AxiosClient.delete,
      RequestClient.post, RequestClient.put, RequestClient.delete.
    destruct (negb (text_truthy (path options)));
      [cbn; repeat split; apply Nat.le_0_l|].
    destruct (negb (text_truthy (token options)) && negb (text_truthy (this_token this)));
      destruct (negb (value_truthy (body options))); cbv zeta;
      rewrite ?axios_dispatch_requests, ?request_dispatch_requests;
      cbn [stop requests List.length];
      repeat split; auto using Nat.le_0_l.
Qed.

Lemma writes_send_one_plain_request_witness :
  path demo_post_options = Some "users"
  /\ send_checks_pass demo_client demo_post_options
  /\ (exists req, requests (AxiosClient.post demo_client demo_post_options
                              (Some (Response 201 demo_single))) = [req]
                  /\ method req = POST /\ url req = "http://localhost:3333/users"
                  /\ data req = body demo_post_options).
Proof.
  assert (H1 : path demo_post_options = Some "users") by reflexivity.
  assert (H2 : send_checks_pass demo_client demo_post_options)
    by (repeat split; reflexivity).
  split; [exact H1|]. split; [exact H2|].
  exact (proj1 (proj1 (writes_send_one_plain_request demo_client demo_post_options
                         "users" H1) H2 (Some (Response 201 demo_single)))).
Defined.

(** X16.  What [post], [put] and [delete] deliver once the checks pass.
    On the operation's expected status the axios-based client calls back
    with the body alone (as [{ body: res.data }]) and the request-based
    client with the whole response, status and body; on a transport
    failure both call back with the library's error value, unchanged. *)
Theorem writes_deliver_response_or_error this options data err :
  (send_checks_pass this options ->
   (completion (AxiosClient.post this options (Some (Response 201 data))) = Succeeded data
    /\ completion (AxiosClient.put this options (Some (Response 200 data))) = Succeeded data
    /\ completion (RequestClient.post this options (Some (Response 201 data)))
       = Succeeded (201%Z, data)
    /\ completion (RequestClient.put this options (Some (Response 200 data)))
       = Succeeded (200%Z, data))
   /\ (fails_with (TransportError err) (AxiosClient.post this options (Some (NetFail err)))
       /\ fails_with (TransportError err) (AxiosClient.put this options (Some (NetFail err)))
       /\ fails_with (TransportError err)
            (RequestClient.post this options (Some (NetFail err)))
       /\ fails_with (TransportError err)
            (RequestClient.put this options (Some (NetFail err)))))
  /\ (checks_pass this options ->
      (completion (AxiosClient.delete this options (Some (Response 204 data)))
       = Succeeded data
       /\ completion (RequestClient.delete this options (Some (Response 204 data)))
          = Succeeded (204%Z, data))
      /\ (fails_with (TransportError err)
            (AxiosClient.delete this options (Some (NetFail err)))
          /\ fails_with (TransportError err)
               (RequestClient.delete this options (Some (NetFail err))))).
Proof.
  unfold fails_with. split.
  - intros (H1 & H2 & H3).
    unfold AxiosClient.post, AxiosClient.put, RequestClient.post, RequestClient.put.
    rewrite H1, H2. cbn [negb]. rewrite <- negb_orb, H3. cbn [negb]. cbv zeta.
    repeat split.
  - intros (H1 & H3).
    unfold AxiosClient.delete, RequestClient.delete.
    rewrite H1. cbn [negb]. rewrite <- negb_orb, H3. cbn [negb]. cbv zeta.
    repeat split.
Qed.

Lemma writes_deliver_response_or_error_witness :
  send_checks_pass demo_client demo_post_options
  /\ completion (AxiosClient.post demo_client demo_post_options
                   (Some (Response 201 demo_single))) = Succeeded demo_single
  /\ completion (RequestClient.post demo_client demo_post_options
                   (Some (Response 201 demo_single))) = Succeeded (201%Z, demo_single)
  /\ fails_with (TransportError (NetError "ECONNRESET"))
       (AxiosClient.put demo_client demo_post_options
          (Some (NetFail (NetError "ECONNRESET")))).
Proof.
  assert (H : send_checks_pass demo_client demo_post_options)
    by (repeat split; reflexivity).
  pose proof (proj1 (writes_deliver_response_or_error demo_client demo_post_options
                       demo_single (NetError "ECONNRESET")) H)
    as ((Ha & _ & Hr & _) & (_ & Hn & _)).
  split; [exact H|]. split; [exact Ha|]. split; [exact Hr|]. exact Hn.
Defined.

(** X17.  The request-based client cannot report an unexpected status
    whose body is text, or an object without [error]: building the message
    raises, so the callback is never called.  This holds for all four
    operations; for [delete], whose response body the library hands over
    as text, it is every unexpected status. *)
Theorem request_client_raises_on_unshaped_body this options status body :
  unshaped_body body ->
  (checks_pass this options -> status <> 200%Z ->
   forall rest,
     completion (RequestClient.get this options (Response status body :: rest)) = Uncaught)
  /\ (send_checks_pass this options -> status <> 201%Z ->
      completion (RequestClient.post this options (Some (Response status body))) = Uncaught)
  /\ (send_checks_pass this options -> status <> 200%Z ->
      completion (RequestClient.put this options (Some (Response status body))) = Uncaught)
  /\ (checks_pass this options -> status <> 204%Z ->
      completion (RequestClient.delete this options (Some (Response status body)))
      = Uncaught).
Proof.
  intros Hu. pose proof (VerbFacts.unshaped_detail _ Hu) as Hd.
  assert (Hs : forall (R : Type), @RequestClient.status_error R status body = Uncaught)
    by (intros R; unfold RequestClient.status_error; rewrite Hd; reflexivity).
  repeat match goal with |- _ /\ _ => split end.
  - intros Hc Hne rest. rewrite request_get_query by exact Hc. simpl.
    destruct (status =? 200)%Z eqn:E; [apply Z.eqb_eq in E; contradiction|].
    simpl. apply Hs.
  - intros (H1 & H2 & H3) Hne. unfold RequestClient.post.
    rewrite H1, H2. cbn [negb]. rewrite <- negb_orb, H3. cbn [negb]. cbv zeta.
    unfold RequestClient.dispatch. cbn [method expected_status].
    destruct (status =? 201)%Z eqn:E; [apply Z.eqb_eq in E; contradiction|].
    simpl. apply Hs.
  - intros (H1 & H2 & H3) Hne. unfold RequestClient.put.
    rewrite H1, H2. cbn [negb]. rewrite <- negb_orb, H3. cbn [negb]. cbv zeta.
    unfold RequestClient.dispatch. cbn [method expected_status].
    destruct (status =? 200)%Z eqn:E; [apply Z.eqb_eq in E; contradiction|].
    simpl. apply Hs.
  - intros (H1 & H3) Hne. unfold RequestClient.delete.
    rewrite H1. cbn [negb]. rewrite <- negb_orb, H3. cbn [negb]. cbv zeta.
    unfold RequestClient.dispatch. cbn [method expected_status].
    destruct (status =? 204)%Z eqn:E; [apply Z.eqb_eq in E; contradiction|].
    simpl. apply Hs.
Qed.

Lemma request_client_raises_on_unshaped_body_witness :
  unshaped_body (JStr "Not Found")
  /\ checks_pass demo_client demo_delete_options
  /\ 404%Z <> 204%Z
  /\ completion (RequestClient.delete demo_client demo_delete_options
                   (Some (Response 404 (JStr "Not Found")))) = Uncaught.
Proof.
  assert (H1 : unshaped_body (JStr "Not Found")) by (left; eexists; reflexivity).
  assert (H2 : checks_pass demo_client demo_delete_options) by (split; reflexivity).
  assert (H3 : 404%Z <> 204%Z) by discriminate.
  pose proof (request_client_raises_on_unshaped_body demo_client demo_delete_options
                404%Z (JStr "Not Found") H1) as (_ & _ & _ & Hd).
  split; [exact H1|]. split; [exact H2|]. split; [exact H3|]. exact (Hd H2 H3).
Defined.

(** X18.  A missing or empty path is refused by every operation of both
    clients before any request, with an [Error] object; so is, by [post]
    and [put], a body that is missing or falsy ([null], [false], [0], the
    empty string). *)
Theorem missing_path_or_body_is_refused this options :
  (text_truthy (path options) = false ->
   (forall script, refused (AxiosClient.get this options script))
   /\ (forall answer, refused (AxiosClient.post this options answer))
   /\ (forall answer, refused (AxiosClient.put this options answer))
   /\ (forall answer, refused (AxiosClient.delete this options answer))
   /\ (forall script, refused (RequestClient.get this options script))
   /\ (forall answer, refused (RequestClient.post this options answer))
   /\ (forall answer, refused (RequestClient.put this options answer))
   /\ (forall answer, refused (RequestClient.delete this options answer)))
  /\ (value_truthy (body options) = false ->
      (forall answer, refused (AxiosClient.post this options answer))
      /\ (forall answer, refused (AxiosClient.put this options answer))
      /\ (forall answer, refused (RequestClient.post this options answer))
      /\ (forall answer, refused (RequestClient.put this options answer)))
  /\ (forall v, In v [JNull; JUndef; JBool false; JNum 0; JStr EmptyString] ->
                value_truthy (Some v) = false).
Proof.
  unfold refused.
  unfold AxiosClient.get, AxiosClient.post, AxiosClient.put, AxiosClient.delete,
    RequestClient.get, RequestClient.post, RequestClient.put, RequestClient.delete.
  split; [|split].
  - intros H. rewrite H. cbn [negb].
    repeat match goal with |- (forall _, _) /\ _ => split end; intros s; simpl; eauto.
  - intros H. rewrite H. cbn [negb].
    repeat match goal with |- (forall _, _) /\ _ => split end; intros s;
      destruct (negb (text_truthy (path options))); simpl; eauto.
  - intros v Hv. simpl in Hv.
    destruct Hv as [<-|[<-|[<-|[<-|[<-|[]]]]]]; reflexivity.
Qed.

Lemma missing_path_or_body_is_refused_witness :
  text_truthy (path (mkOptions (Some EmptyString) None None None (Some "t") None)) = false
  /\ refused (AxiosClient.get demo_client
                (mkOptions (Some EmptyString) None None None (Some "t") None)
                [Response 200 demo_single])
  /\ value_truthy (body (mkOptions (Some "users") None (Some (JNum 0)) None None None))
     = false
  /\ refused (RequestClient.post demo_client
                (mkOptions (Some "users") None (Some (JNum 0)) None None None)
                (Some (Response 201 demo_single))).
Proof.
  pose proof (missing_path_or_body_is_refused demo_client
                (mkOptions (Some EmptyString) None None None (Some "t") None))
    as (Hp & _).
  pose proof (missing_path_or_body_is_refused demo_client
                (mkOptions (Some "users") None (Some (JNum 0)) None None None))
    as (_ & Hb & _).
  split; [reflexivity|]. split; [exact (proj1 (Hp eq_refl) _)|].
  split; [reflexivity|].
  exact (proj1 (proj2 (proj2 (Hb eq_refl))) _).
Defined.
